(** * NDVI Explorer: the raster analysis pipeline of [ndvi_app.py]

    A shallow embedding of the scene deduplication ([filter_best_items]),
    the NDVI workflow ([compute_ndvi_workflow]) and the run-button block of
    the Streamlit script, with the properties the specification states
    about them.

    Pixel values, cloud-cover percentages and areas are binary64 numbers,
    as in the program (numpy [float64], Python [float]); they are modelled
    by Rocq's primitive floats, whose operations are the IEEE 754 ones. *)

From Stdlib Require Import Floats ZArith Lia.
From stdpp Require Import list strings.

(** * Part I: the program

    The definitions of this part follow [ndvi_app.py]; the comments give
    the lines they come from. *)

(** ** Exceptions and fallible code

    Python code that can raise returns a [res]: [Ok v] for a value,
    [Raise e] for an exception. *)

Inductive exn : Type :=
  | KeyError (what : string)
  | IndexError (what : string)
  | ValueError (what : string)
  | External (what : string).

Inductive res (A : Type) : Type :=
  | Ok (a : A)
  | Raise (e : exn).
Arguments Ok {A} a.
Arguments Raise {A} e.

Definition bind {A B} (m : res A) (f : A -> res B) : res B :=
  match m with
  | Ok a => f a
  | Raise e => Raise e
  end.

Notation "x <- m ;; k" := (bind m (fun x => k))
  (at level 100, m at next level, right associativity).

(** A list comprehension, or a loop over a list, whose body can raise:
    the first exception ends it. *)
Fixpoint traverse {A B} (f : A -> res B) (l : list A) : res (list B) :=
  match l with
  | [] => Ok []
  | x :: l' => y <- f x ;; ys <- traverse f l' ;; Ok (y :: ys)
  end.

(** ** Catalog items and [filter_best_items] *)

(** A STAC item, as far as the program reads it: [item.id], the entry
    ["eo:cloud_cover"] of [item.properties] ([None] when the dictionary has
    no such key), and the footprint [item.geometry], kept as the string
    [shape(item.geometry).wkb_hex]. The acquisition instant is part of every
    item; the program never reads it. *)
Record Item : Type := {
  item_id : string;
  cloud_cover : option float;
  wkb_hex : string;
  datetime : Z
}.

(** A row of [gdf_items]; the frame's index is the row's position. *)
Record Row : Type := {
  row_id : string;
  row_cloud : float;
  row_hash : Z
}.

(** [enumerate k l]: the elements of [l] with their index labels,
    counted from [k]. *)
Fixpoint enumerate {A} (k : nat) (l : list A) : list (nat * A) :=
  match l with
  | [] => []
  | x :: l' => (k, x) :: enumerate (S k) l'
  end.

(** [Series.idxmin()]: the index label of the first occurrence of the
    minimum, NaN entries skipped; [None] when every entry is NaN. *)
Fixpoint idxmin (s : list (nat * float)) : option (nat * float) :=
  match s with
  | [] => None
  | (i, c) :: s' =>
      if is_nan c then idxmin s'
      else match idxmin s' with
           | Some (j, d) => if PrimFloat.ltb d c then Some (j, d) else Some (i, c)
           | None => Some (i, c)
           end
  end.

Section Deduplication.
(** Python's [hash] on strings: a function of the string, seeded once
    per interpreter process. *)
Variable hash : string -> Z.

(** One dictionary of the list comprehension of lines 76-78;
    [item.properties["eo:cloud_cover"]] raises [KeyError] on a missing
    key. Line 80 adds the hash column. *)
Definition make_row (it : Item) : res Row :=
  match cloud_cover it with
  | Some c =>
      Ok {| row_id := item_id it; row_cloud := c;
            row_hash := hash (wkb_hex it) |}
  | None => Raise (KeyError "eo:cloud_cover")
  end.

(** [groupby("hash")]: the group of key [h], rows in frame order with
    their labels. *)
Definition group (rows : list Row) (h : Z) : list (nat * Row) :=
  filter (fun ir => row_hash ir.2 = h) (enumerate 0 rows).

(** The group keys. pandas lists them in ascending order; the order does
    not reach the result, which only tests membership in [best]. *)
Definition group_keys (rows : list Row) : list Z :=
  remove_dups (row_hash <$> rows).

(** [groupby("hash")["cloud"].idxmin()], one label per group. A group
    whose cloud values are all NaN has no minimum: pandas gives NaN for
    it (or raises), and [.loc] then raises on that label. *)
Definition groupby_idxmin (rows : list Row) : res (list nat) :=
  traverse (fun h =>
          match idxmin (prod_map id row_cloud <$> group rows h) with
          | Some (i, _) => Ok i
          | None => Raise (KeyError "nan")
          end)
       (group_keys rows).

(** [gdf_items.loc[labels]]. *)
Definition loc (rows : list Row) (labels : list nat) : res (list Row) :=
  traverse (fun i =>
          match rows !! i with
          | Some r => Ok r
          | None => Raise (KeyError "label")
          end)
       labels.

(** [gpd.GeoDataFrame(records, geometry="geometry", ...)], lines 76-79:
    a frame built from no record has no column to be its geometry, and the
    constructor raises [ValueError]. *)
Definition GeoDataFrame (records : list Row) : res (list Row) :=
  match records with
  | [] => Raise (ValueError "Unknown column geometry")
  | _ => Ok records
  end.

(** Lines 75-82. The caller passes a list with at least one item. *)
Definition filter_best_items (items : list Item) : res (list Item) :=
  records <- traverse make_row items ;;
  gdf_items <- GeoDataFrame records ;;
  labels <- groupby_idxmin gdf_items ;;
  best <- loc gdf_items labels ;;
  Ok (filter (fun it => item_id it ∈ (row_id <$> best)) items).
End Deduplication.

(** ** Arrays

    An n-dimensional array is its shape and its index function; the axes
    are (time, band, y, x), as [stackstac.stack] lays them out. *)

Inductive Band : Type := B08 | B04.

#[global] Instance Band_eq_dec : EqDecision Band.
Proof. solve_decision. Defined.

Record Stack : Type := {
  stack_nt : nat;
  stack_ny : nat;
  stack_nx : nat;
  sample : nat -> Band -> nat -> nat -> float
}.

Record Cube : Type := {
  nt : nat;
  cube_ny : nat;
  cube_nx : nat;
  voxel : nat -> nat -> nat -> float
}.

Record Grid : Type := {
  ny : nat;
  nx : nat;
  cell : nat -> nat -> float
}.

(** [clipped.sel(band=b).astype(float)]; the stack is [float64] already. *)
Definition sel (s : Stack) (b : Band) : Cube :=
  {| nt := stack_nt s; cube_ny := stack_ny s; cube_nx := stack_nx s;
     voxel := fun t y x => sample s t b y x |}.

(** Elementwise arithmetic of two arrays over the same coordinates. *)
Definition cube_zip (f : float -> float -> float) (a b : Cube) : Cube :=
  {| nt := nt a; cube_ny := cube_ny a; cube_nx := cube_nx a;
     voxel := fun t y x => f (voxel a t y x) (voxel b t y x) |}.

(** Line 114: [(nir - red) / (nir + red)]. *)
Definition ndvi_of (nir red : Cube) : Cube :=
  cube_zip PrimFloat.div (cube_zip PrimFloat.sub nir red)
                         (cube_zip PrimFloat.add nir red).

(** Lines 112-114. *)
Definition index_grid (clipped : Stack) : Cube :=
  let nir := sel clipped B08 in
  let red := sel clipped B04 in
  ndvi_of nir red.

(** NaN-skipping maximum and minimum of two numbers ([fmax], [fmin]). *)
Definition fmax (a b : float) : float :=
  if is_nan a then b
  else if is_nan b then a
  else if PrimFloat.ltb a b then b else a.

Definition fmin (a b : float) : float :=
  if is_nan a then b
  else if is_nan b then a
  else if PrimFloat.ltb b a then b else a.

(** The reductions of xarray on a float array ([skipna] is on by default
    for floats): NaN entries are left out, and the result is NaN when
    nothing is left. *)
Definition nanmax (l : list float) : float := foldr fmax nan l.
Definition nanmin (l : list float) : float := foldr fmin nan l.

Definition valid (l : list float) : list float :=
  filter (fun v => is_nan v = false) l.

Definition of_nat (n : nat) : float :=
  PrimFloat.of_uint63 (Uint63.of_Z (Z.of_nat n)).

(** numpy's sum of a contiguous [float64] array ([add.reduce], the
    routine [pairwise_sum] of its inner loop). Fewer than 8 numbers are
    added one after the other. Up to 128 numbers are added in 8 interleaved
    accumulators, which are combined as a balanced tree; the numbers after
    the last full group of 8 are added to that one after the other. A
    longer array is cut in two (the first part a multiple of 8 long) and
    the sums of the parts are added. *)
Fixpoint accumulate8 (r0 r1 r2 r3 r4 r5 r6 r7 : float) (l : list float)
    : float :=
  match l with
  | a0 :: a1 :: a2 :: a3 :: a4 :: a5 :: a6 :: a7 :: l' =>
      accumulate8 (r0 + a0) (r1 + a1) (r2 + a2) (r3 + a3)
                  (r4 + a4) (r5 + a5) (r6 + a6) (r7 + a7) l'
  | rest =>
      foldl PrimFloat.add
            (((r0 + r1) + (r2 + r3)) + ((r4 + r5) + (r6 + r7)))%float rest
  end.

Definition block_sum (l : list float) : float :=
  match l with
  | a0 :: a1 :: a2 :: a3 :: a4 :: a5 :: a6 :: a7 :: l' =>
      accumulate8 a0 a1 a2 a3 a4 a5 a6 a7 l'
  | _ => foldl PrimFloat.add 0%float l
  end.

(** [fuel] bounds the depth of the halving; the length of the array is
    more than enough ([pairwise_sum_fuel]). *)
Fixpoint pairwise_sum (fuel : nat) (l : list float) : float :=
  match fuel with
  | O => block_sum l
  | S fuel' =>
      if decide (length l <= 128) then block_sum l
      else
        let n2 := length l / 2 - (length l / 2) mod 8 in
        (pairwise_sum fuel' (take n2 l) + pairwise_sum fuel' (drop n2 l))%float
  end.

(** The reduction starts from the identity of the addition. *)
Definition np_sum (l : list float) : float :=
  (0 + pairwise_sum (length l) l)%float.

(** [np.nanmean], [np.nansum]: the NaN entries are replaced by zero before
    the sum, and the mean divides by the number of the other entries. *)
Definition zero_filled (l : list float) : list float :=
  (fun v => if is_nan v then 0%float else v) <$> l.

Definition nanmean (l : list float) : float :=
  (np_sum (zero_filled l) / of_nat (length (valid l)))%float.

(** The values of one pixel along the time axis. *)
Definition series (c : Cube) (y x : nat) : list float :=
  (fun t => voxel c t y x) <$> seq 0 (nt c).

(** Line 117: [ndvi.max(dim="time")]. *)
Definition max_time (c : Cube) : Grid :=
  {| ny := cube_ny c; nx := cube_nx c;
     cell := fun y x => nanmax (series c y x) |}.

(** The cells of a grid, row by row. *)
Definition cells (g : Grid) : list float :=
  y ← seq 0 (ny g); (fun x => cell g y x) <$> seq 0 (nx g).

(** Line 120: [coarsen(x=4, y=4, boundary='pad').mean()]. Blocks of 4 by 4
    cells; the blocks at the far edges are padded with NaN. *)
Definition padded (g : Grid) (y x : nat) : float :=
  if decide (y < ny g /\ x < nx g) then cell g y x else nan.

Definition block (g : Grid) (Y X : nat) : list float :=
  i ← seq 0 4; (fun j => padded g (4 * Y + i) (4 * X + j)) <$> seq 0 4.

Definition block_rows (g : Grid) (Y X : nat) : list (list float) :=
  (fun i => (fun j => padded g (4 * Y + i) (4 * X + j)) <$> seq 0 4)
    <$> seq 0 4.

(** The mean of a block is a reduction over the two window axes of the
    array reshaped to (rows / 4, 4, columns / 4, 4): the sum, with the NaN
    cells as zeros, adds the four cells of each row of the block and
    accumulates the four rows; the count is that of the cells that are
    numbers. *)
Definition rows_sum (rows : list (list float)) : float :=
  foldl (fun acc row =>
           (acc + foldl PrimFloat.add 0 (zero_filled row))%float)
        0%float rows.

Definition coarsen_mean (g : Grid) : Grid :=
  {| ny := (ny g + 3) / 4; nx := (nx g + 3) / 4;
     cell := fun Y X =>
       (rows_sum (block_rows g Y X)
        / of_nat (length (valid (block g Y X))))%float |}.

(** Lines 124-131. [None] is the function's "no valid data" value. *)
Record Stats : Type := {
  stat_mean : float;
  stat_min : float;
  stat_max : float
}.

Definition statistics (ndvi_data : Grid) : option Stats :=
  if forallb is_nan (cells ndvi_data) then None
  else Some {| stat_mean := nanmean (cells ndvi_data);
               stat_min := nanmin (cells ndvi_data);
               stat_max := nanmax (cells ndvi_data) |}.

(** ** The run: effects, laziness and control

    What a run does besides computing: it shows messages on the page, it
    queries the catalog, signs items and reads band assets over the network.
    These are recorded as a log of events. [st.stop()] ends the script; it
    is not an [Exception], so no [except Exception] clause catches it. *)

Inductive ui : Type :=
  | ErrorNoAOI                          (* "Please upload or draw an AOI." *)
  | ShowGeometry (wkt : string)
  | ShowBounds
  | ErrorAreaExceeded (area_km2 : float)
  | SuccessAOI (area_km2 : float)
  | WriteAvailable (n : nat)
  | ErrorNoScenes                       (* "No scenes found." *)
  | InfoBest (n : nat)
  | ErrorNDVI (e : exn)                 (* "NDVI computation error: {e}" *)
  | ErrorNoValid                        (* "No valid NDVI data found." *)
  | ShowStats (s : Stats)
  | ShowPlot
  | ErrorAnalysis (e : exn).            (* the outer [except] *)

Inductive event : Type :=
  | Show (u : ui)
  | ReadUpload
  | Search
  | Sign (id : string)
  | Read (id : string) (b : Band).

Inductive outcome (A : Type) : Type :=
  | Done (a : A)
  | Raised (e : exn)
  | Stopped.
Arguments Done {A} a.
Arguments Raised {A} e.
Arguments Stopped {A}.

(** A computation: how it ends, and what it logged on the way. *)
Definition M (A : Type) : Type := outcome A * list event.

Definition ret {A} (a : A) : M A := (Done a, []).

Definition bindM {A B} (m : M A) (f : A -> M B) : M B :=
  match m with
  | (Done a, l) => let '(r, l') := f a in (r, l ++ l')
  | (Raised e, l) => (Raised e, l)
  | (Stopped, l) => (Stopped, l)
  end.

Notation "x <~ m ;; k" := (bindM m (fun x => k))
  (at level 100, m at next level, right associativity).
Notation "m ;;; k" := (bindM m (fun _ => k))
  (at level 100, right associativity).

Definition emit (ev : event) : M unit := (Done tt, [ev]).
Definition raise {A} (e : exn) : M A := (Raised e, []).
Definition stop {A} : M A := (Stopped, []).

Definition lift {A} (r : res A) : M A :=
  match r with
  | Ok a => ret a
  | Raise e => raise e
  end.

(** [try: body except Exception as e: handler]. *)
Definition try_except {A} (body : M A) (handler : exn -> M A) : M A :=
  match body with
  | (Raised e, l) => let '(r, l') := handler e in (r, l ++ l')
  | other => other
  end.

Fixpoint for_each {A B} (f : A -> M B) (l : list A) : M (list B) :=
  match l with
  | [] => ret []
  | x :: l' => y <~ f x ;; ys <~ for_each f l' ;; ret (y :: ys)
  end.

(** A dask-backed array is a deferred computation: nothing is read when it
    is built, and each [.compute()] runs its graph, network reads
    included; dask keeps no result from one [compute] call to the next.
    A graph is run by dask's scheduler, which may order its tasks
    differently from one call to the next: [k] is the number of the
    [compute] call within the run. *)
Definition lazy (A : Type) : Type := nat -> M A.
Definition compute {A} (k : nat) (a : lazy A) : M A := a k.

(** The AOI: a GeoDataFrame, one feature per row. [area_6933] is the area
    of the feature's geometry in EPSG:6933, in square metres, as
    [to_crs("EPSG:6933").area] gives it. *)
Record Feature : Type := {
  wkt : string;
  area_6933 : float
}.

(** The collaborators of a run. *)
Record Env : Type := {
  (** Python's string hash of this process *)
  hash : string -> Z;
  (** the catalog search for the AOI's bounds, the dates and the cloud limit *)
  search : list Feature -> res (list Item);
  (** [planetary_computer.sign] *)
  sign : Item -> res Item;
  (** [stackstac.stack]: the grid (rows, columns) of the lazy stack *)
  stack_grid : list Item -> list Feature -> res (nat * nat);
  (** the dask chunks of that grid that the clipped array keeps and the
      footprint of an item overlaps: one, and this many more; a band asset
      of the item is read in one window for each of them *)
  more_windows : Item -> nat * nat -> nat;
  (** dask's scheduler: the order in which the read tasks of the [k]-th
      materialisation start *)
  schedule : nat -> list (nat * Band) -> list (nat * Band);
  (** the number of further read tasks that its threads have started by
      the time a failing read ends the materialisation *)
  in_flight : nat;
  (** one band of one scene on that grid, read at materialisation *)
  read_asset : Item -> Band -> res (nat -> nat -> float);
  (** [rio.clip]: the cells of the grid within the AOI's geometry *)
  clip_mask : list Feature -> res (nat -> nat -> bool)
}.

Definition MAX_AREA_KM2 : float := 500.

Record Result : Type := {
  ndvi_data : Grid;
  ndvi_img : Grid;
  result_statistics : Stats
}.

Section Run.
Variable env : Env.

(** Lines 60-72. *)
Definition fetch_items (gdf : list Feature) : M (list Item) :=
  emit Search ;;;
  items <~ lift (search env gdf) ;;
  (if decide (0 < length items)
   then emit (Show (WriteAvailable (length items)))
   else ret tt) ;;;
  ret items.

(** The lazy stack of lines 95-102. A materialisation reads every band
    asset of every item, one window for each dask chunk of the grid that
    it needs from the item: a read task is the position of its item and
    its band, and there are [windows it grid] tasks for each band asset
    of [it]. *)
Definition windows (it : Item) (grid : nat * nat) : nat :=
  S (more_windows env it grid).

Definition read_tasks (items : list Item) (grid : nat * nat)
    : list (nat * Band) :=
  ir ← enumerate 0 items;
  replicate (windows ir.2 grid) (ir.1, B08)
  ++ replicate (windows ir.2 grid) (ir.1, B04).

(** The scheduler orders the tasks; it runs each of them once. *)
Definition scheduled (k : nat) (tasks : list (nat * Band))
    : list (nat * Band) :=
  if decide (schedule env k tasks ≡ₚ tasks) then schedule env k tasks
  else tasks.

Definition read_task (items : list Item) (t : nat * Band)
    : res (nat -> nat -> float) :=
  match items !! t.1 with
  | Some it => read_asset env it t.2
  | None => Raise (IndexError "time")
  end.

Definition attempt (items : list Item) (t : nat * Band) : list event :=
  match items !! t.1 with
  | Some it => [Read (item_id it) t.2]
  | None => []
  end.

(** The reads of a materialisation, as they start. The first that fails
    ends the materialisation with its exception; the reads that other
    threads have started by then are attempted as well. *)
Fixpoint run_reads (items : list Item) (tasks : list (nat * Band))
    : M unit :=
  match tasks with
  | [] => ret tt
  | t :: tasks' =>
      match read_task items t with
      | Ok _ => (Done tt, attempt items t) ;;; run_reads items tasks'
      | Raise e =>
          (Raised e,
           attempt items t ++ (take (in_flight env) tasks' ≫= attempt items))
      end
  end.

(** The stack that a materialisation gives when every read succeeds. *)
Definition stack_values (items : list Item) (grid : nat * nat) : Stack :=
  {| stack_nt := length items; stack_ny := grid.1; stack_nx := grid.2;
     sample := fun t b y x =>
       match read_task items (t, b) with
       | Ok pixels => pixels y x
       | Raise _ => nan
       end |}.

Definition stack_of (items : list Item) (grid : nat * nat) : lazy Stack :=
  fun k =>
  run_reads items (scheduled k (read_tasks items grid)) ;;;
  ret (stack_values items grid).

(** Line 109, [rio.clip] with its defaults: the cells outside the AOI's
    geometry become NaN ([where]), and the array is cropped to the data
    window of the mask ([drop=True]), the least window that holds every
    cell within the geometry. *)
Definition clip (s : Stack) (mask : nat -> nat -> bool) : Stack :=
  {| stack_nt := stack_nt s; stack_ny := stack_ny s; stack_nx := stack_nx s;
     sample := fun t b y x => if mask y x then sample s t b y x else nan |}.

Record Window : Type := {
  row_off : nat;
  col_off : nat;
  height : nat;
  width : nat
}.

Definition data_rows (mask : nat -> nat -> bool) (grid : nat * nat)
    : list nat :=
  filter (fun y => Exists (fun x => mask y x = true) (seq 0 grid.2))
         (seq 0 grid.1).

Definition data_cols (mask : nat -> nat -> bool) (grid : nat * nat)
    : list nat :=
  filter (fun x => Exists (fun y => mask y x = true) (seq 0 grid.1))
         (seq 0 grid.2).

(** [rasterio.windows.get_data_window] of the mask; [rio.clip] raises
    [NoDataInBounds] when no cell of the grid is within the geometry. *)
Definition data_window (mask : nat -> nat -> bool) (grid : nat * nat)
    : res Window :=
  match data_rows mask grid, data_cols mask grid with
  | y0 :: rows, x0 :: cols =>
      Ok {| row_off := y0; col_off := x0;
            height := S (default y0 (last rows) - y0);
            width := S (default x0 (last cols) - x0) |}
  | _, _ => Raise (External "NoDataInBounds")
  end.

Definition isel_window (s : Stack) (w : Window) : Stack :=
  {| stack_nt := stack_nt s; stack_ny := height w; stack_nx := width w;
     sample := fun t b y x => sample s t b (row_off w + y) (col_off w + x) |}.

(** Line 88, one item. *)
Definition sign_item (it : Item) : M Item :=
  emit (Sign (item_id it)) ;;; lift (sign env it).

(** The body of the [try] of lines 85-137. *)
Definition workflow_body (items : list Item) (original_gdf : list Feature)
    : M (option Result) :=
  items <~ for_each sign_item items ;;
  grid <~ lift (stack_grid env items original_gdf) ;;
  let stack : lazy Stack := stack_of items grid in
  mask <~ lift (clip_mask env original_gdf) ;;
  window <~ lift (data_window mask grid) ;;
  let clipped : lazy Stack :=
    fun k => s <~ stack k ;; ret (isel_window (clip s mask) window) in
  let ndvi : lazy Cube := fun k => s <~ clipped k ;; ret (index_grid s) in
  let composite : lazy Grid := fun k => c <~ ndvi k ;; ret (max_time c) in
  let lowres : lazy Grid :=
    fun k => g <~ composite k ;; ret (coarsen_mean g) in
  ndvi_img <~ compute 0 lowres ;;
  ndvi_data <~ compute 1 composite ;;
  match statistics ndvi_data with
  | None => ret None
  | Some stats =>
      ret (Some {| ndvi_data := ndvi_data; ndvi_img := ndvi_img;
                   result_statistics := stats |})
  end.

(** Lines 84-141. *)
Definition compute_ndvi_workflow (items : list Item)
    (original_gdf : list Feature) : M (option Result) :=
  try_except (workflow_body items original_gdf)
             (fun e => emit (Show (ErrorNDVI e)) ;;; ret None).

(** Lines 147-157: the AOI comes from the uploaded file ([uploaded] is what
    reading it gives), else from the first drawing. *)
Definition load_aoi (uploaded : option (res (list Feature)))
    (all_drawings : list Feature) : M (list Feature) :=
  match uploaded with
  | Some file => emit ReadUpload ;;; lift file
  | None =>
      match all_drawings with
      | geojson :: _ => ret [geojson]
      | [] => emit (Show ErrorNoAOI) ;;; stop
      end
  end.

(** Lines 160-164. *)
Definition show_aoi (gdf : list Feature) : M unit :=
  match gdf with
  | f :: _ => emit (Show (ShowGeometry (wkt f))) ;;; emit (Show ShowBounds)
  | [] => raise (IndexError "iloc")
  end.

(** Lines 167-172. *)
Definition area_validation (gdf : list Feature) : M float :=
  match gdf with
  | f :: _ =>
      let area_km2 := (area_6933 f / 1e6)%float in
      if PrimFloat.ltb MAX_AREA_KM2 area_km2
      then emit (Show (ErrorAreaExceeded area_km2)) ;;; stop
      else emit (Show (SuccessAOI area_km2)) ;;; ret area_km2
  | [] => raise (KeyError "0")
  end.

(** Lines 144-209, the block under [if run_button]. *)
Definition run_analysis (uploaded : option (res (list Feature)))
    (all_drawings : list Feature) : M unit :=
  try_except
    (gdf <~ load_aoi uploaded all_drawings ;;
     show_aoi gdf ;;;
     area_km2 <~ area_validation gdf ;;
     items <~ fetch_items gdf ;;
     (if decide (length items = 0)
      then emit (Show ErrorNoScenes) ;;; stop
      else ret tt) ;;;
     best_items <~ lift (filter_best_items (hash env) items) ;;
     emit (Show (InfoBest (length best_items))) ;;;
     result <~ compute_ndvi_workflow best_items gdf ;;
     match result with
     | None => emit (Show ErrorNoValid) ;;; stop
     | Some r =>
         emit (Show (ShowStats (result_statistics r))) ;;;
         emit (Show ShowPlot)
     end)
    (fun e => emit (Show (ErrorAnalysis e))).
End Run.

(** * Part II: the vocabulary of the statements *)

(** ** Binary64 comparisons

    The order of the non-NaN binary64 numbers, read off the specification
    of the primitive comparisons: every non-NaN number gets a rank in
    [Z * Z * Z], and [<?], [<=?] and [=?] are the lexicographic order on
    ranks. *)

Module F64.
Local Open Scope Z_scope.

Definition rank (f : spec_float) : option (Z * Z * Z) :=
  match f with
  | S754_nan => None
  | S754_zero _ => Some (0, 0, 0)
  | S754_infinity s => Some (if s then -2 else 2, 0, 0)
  | S754_finite s m e =>
      Some (if s then (-1, - e, - Z.pos m) else (1, e, Z.pos m))
  end.

Definition lex_lt (a b : Z * Z * Z) : Prop :=
  a.1.1 < b.1.1 \/
  (a.1.1 = b.1.1 /\ (a.1.2 < b.1.2 \/ (a.1.2 = b.1.2 /\ a.2 < b.2))).

Definition key (x : float) : option (Z * Z * Z) := rank (Prim2SF x).
End F64.

Section DeduplicationVocabulary.
Variable hash : string -> Z.

(** The deduplication key of an item: the hash of its footprint's
    well-known-binary text. *)
Definition footprint_key (it : Item) : Z := hash (wkb_hex it).

(** Row [r], at label [p], is the first row of least cloud cover among
    the rows of its group. *)
Definition row_first_min (rows : list Row) (p : nat) (r : Row) : Prop :=
  rows !! p = Some r /\
  forall j r', rows !! j = Some r' -> row_hash r' = row_hash r ->
    PrimFloat.leb (row_cloud r) (row_cloud r') = true /\
    (j < p -> PrimFloat.ltb (row_cloud r) (row_cloud r') = true).

(** The same for items: [b], at position [i], has the least cloud cover
    among the items of its footprint key, and is the first such item. *)
Definition first_min (items : list Item) (i : nat) (b : Item) : Prop :=
  items !! i = Some b /\
  forall j c cb cc,
    items !! j = Some c -> footprint_key c = footprint_key b ->
    cloud_cover b = Some cb -> cloud_cover c = Some cc ->
    PrimFloat.leb cb cc = true /\ (j < i -> PrimFloat.ltb cb cc = true).

Definition cloud_known (it : Item) : Prop :=
  exists c, cloud_cover it = Some c /\ is_nan c = false.
End DeduplicationVocabulary.

(** Arrays with given contents, for the examples. *)
Definition grid_of_rows (rows : list (list float)) : Grid :=
  {| ny := length rows; nx := length (default [] (head rows));
     cell := fun y x => default nan (rows !! y ≫= (.!! x)) |}.

Definition cube_of_series (ts : list float) : Cube :=
  {| nt := length ts; cube_ny := 1; cube_nx := 1;
     voxel := fun t _ _ => default nan (ts !! t) |}.

Definition const_stack (n h w : nat) (nir red : float) : Stack :=
  {| stack_nt := n; stack_ny := h; stack_nx := w;
     sample := fun _ b _ _ => match b with B08 => nir | B04 => red end |}.

(** The area, in square kilometres, of an AOI whose features do not
    overlap: the sum of the areas of its features, as
    [gdf.to_crs("EPSG:6933").area.sum() / 1e6] gives it. *)
Definition total_area_km2 (gdf : list Feature) : float :=
  (np_sum (area_6933 <$> gdf) / 1e6)%float.

(** The network reads of a log. *)
Definition is_read (ev : event) : bool :=
  match ev with
  | Read _ _ => true
  | _ => false
  end.

Definition reads (log : list event) : nat :=
  length (List.filter is_read log).

(** The events that reach the catalog or the imagery. *)
Definition network (ev : event) : bool :=
  match ev with
  | Search | Sign _ | Read _ _ => true
  | Show _ | ReadUpload => false
  end.

Section RunVocabulary.
Variable env : Env.

(** The lazy composite of lines 95-117, as [workflow_body] builds it. *)
Definition lazy_composite (items : list Item) (grid : nat * nat)
    (mask : nat -> nat -> bool) (window : Window) : lazy Grid :=
  fun k =>
  c <~ (s <~ (s <~ stack_of env items grid k ;;
              ret (isel_window (clip s mask) window)) ;;
        ret (index_grid s)) ;;
  ret (max_time c).
End RunVocabulary.

(** Sample scenes. *)

Module Scenes.
Local Open Scope float_scope.

(** A stand-in for the interpreter's seeded string hash. *)
Definition sample_hash (s : string) : Z := Z.of_nat (String.length s).

Definition tile_a : Item :=
  {| item_id := "S2A_36MZE_0105"; cloud_cover := Some 5;
     wkb_hex := "0103000000"; datetime := 100 |}.
Definition tile_b : Item :=
  {| item_id := "S2B_36MZE_0110"; cloud_cover := Some 20;
     wkb_hex := "0103000000"; datetime := 200 |}.
Definition tile_c : Item :=
  {| item_id := "S2A_37MBV_0105"; cloud_cover := Some 20;
     wkb_hex := "010300000001"; datetime := 100 |}.

(** Two scenes of one footprint and one cloud cover; the later one, with
    the greater identifier, comes first in the sequence. *)
Definition tie_late : Item :=
  {| item_id := "S2B_36MZE_0210"; cloud_cover := Some 10;
     wkb_hex := "0103000000"; datetime := 200 |}.
Definition tie_early : Item :=
  {| item_id := "S2A_36MZE_0205"; cloud_cover := Some 10;
     wkb_hex := "0103000000"; datetime := 100 |}.

(** A second record of [tile_a]'s identifier, cloudier. *)
Definition tile_a_again : Item :=
  {| item_id := "S2A_36MZE_0105"; cloud_cover := Some 20;
     wkb_hex := "0103000000"; datetime := 100 |}.

(** A scene whose properties have no ["eo:cloud_cover"]. *)
Definition no_cloud : Item :=
  {| item_id := "S2A_36MZE_0305"; cloud_cover := None;
     wkb_hex := "0103000000"; datetime := 300 |}.
End Scenes.

(** Sample runs. *)

Module Runs.
Import Scenes.
Local Open Scope float_scope.

(** A scheduler that starts the read tasks in the order of the graph at
    the first materialisation of a run, and in the opposite order at the
    second. *)
Definition back_and_forth (k : nat) (tasks : list (nat * Band))
    : list (nat * Band) :=
  if Nat.odd k then reverse tasks else tasks.

(** A catalog of two scenes of one footprint whose band assets are constant
    rasters on a 2 by 2 grid lying within the AOI; every band asset is
    read in two windows. *)
Definition uniform (nir red : float) : Env :=
  {| hash := sample_hash;
     search := fun _ => Ok [tile_b; tile_a];
     sign := fun it => Ok it;
     stack_grid := fun items _ =>
       match items with
       | [] => Raise (External "no items")
       | _ => Ok (2%nat, 2%nat)
       end;
     more_windows := fun _ _ => 1%nat;
     schedule := back_and_forth;
     in_flight := 1%nat;
     read_asset := fun _ b =>
       Ok (fun _ _ => match b with B08 => nir | B04 => red end);
     clip_mask := fun _ => Ok (fun _ _ => true) |}.

(** Vegetation everywhere. *)
Definition green : Env := uniform 200 100.

(** No signal in either band: the index is 0/0 on every cell. *)
Definition blank : Env := uniform 0 0.

(** The same catalog when the asset reads fail. *)
Definition offline : Env :=
  {| hash := sample_hash;
     search := fun _ => Ok [tile_b; tile_a];
     sign := fun it => Ok it;
     stack_grid := fun _ _ => Ok (2%nat, 2%nat);
     more_windows := fun _ _ => 1%nat;
     schedule := back_and_forth;
     in_flight := 1%nat;
     read_asset := fun _ _ => Raise (External "read timed out");
     clip_mask := fun _ => Ok (fun _ _ => true) |}.

(** Squares of 10 km and 30 km a side, and a field of 300 square
    kilometres. *)
Definition square_10km : Feature :=
  {| wkt := "POLYGON ((36.8 -1.3, 36.89 -1.3, 36.89 -1.21, 36.8 -1.21, 36.8 -1.3))";
     area_6933 := 100e6 |}.
Definition square_30km : Feature :=
  {| wkt := "POLYGON ((36.8 -1.3, 37.07 -1.3, 37.07 -1.03, 36.8 -1.03, 36.8 -1.3))";
     area_6933 := 900e6 |}.
Definition field_300 : Feature :=
  {| wkt := "POLYGON ((36.0 -1.0, 36.2 -1.0, 36.2 -0.86, 36.0 -0.86, 36.0 -1.0))";
     area_6933 := 300e6 |}.

(** A second field, of 389 square kilometres, to the east of [field_300]
    and apart from it. *)
Definition field_389 : Feature :=
  {| wkt := "POLYGON ((36.5 -1.0, 36.7 -1.0, 36.7 -0.82, 36.5 -0.82, 36.5 -1.0))";
     area_6933 := 389e6 |}.
End Runs.

(** ** Further vocabulary *)

(** An asset read of one of the signed items. *)
Definition reading (signed : list Item) (ev : event) : Prop :=
  exists it b, it ∈ signed /\ ev = Read (item_id it) b.

(** The messages that come before a [st.stop()]. *)
Definition stop_message (u : ui) : Prop :=
  u = ErrorNoAOI \/ (exists a, u = ErrorAreaExceeded a) \/
  u = ErrorNoScenes \/ u = ErrorNoValid.

(** A computation that stops only after one of these messages, and one
    that ends, when it ends normally, on the plot. *)
Definition announced {A} (m : M A) : Prop :=
  m.1 = Stopped -> exists u, stop_message u /\ last m.2 = Some (Show u).

Definition plots {A} (m : M A) : Prop :=
  forall a, m.1 = Done a -> last m.2 = Some (Show ShowPlot).

Section MainVocabulary.
Variable env : Env.

(** The part of the run after the AOI has passed the area validation. *)
Definition after_validation (gdf : list Feature) : M unit :=
  items <~ fetch_items env gdf ;;
  (if decide (length items = 0)
   then emit (Show ErrorNoScenes) ;;; stop
   else ret tt) ;;;
  best_items <~ lift (filter_best_items (hash env) items) ;;
  emit (Show (InfoBest (length best_items))) ;;;
  result <~ compute_ndvi_workflow env best_items gdf ;;
  match result with
  | None => emit (Show ErrorNoValid) ;;; stop
  | Some r =>
      emit (Show (ShowStats (result_statistics r))) ;;;
      emit (Show ShowPlot)
  end.
End MainVocabulary.

(** Further samples. *)

Module MoreSamples.
Import Scenes Runs.

(** Another stand-in for the string hash, as another process would seed
    it. *)
Definition other_hash (s : string) : Z := 2 * Z.of_nat (String.length s) + 7.

(** The catalog of [green] when the signing service refuses. *)
Definition unsigned : Env :=
  {| hash := sample_hash;
     search := fun _ => Ok [tile_b; tile_a];
     sign := fun _ => Raise (External "signing refused");
     stack_grid := fun _ _ => Ok (2%nat, 2%nat);
     more_windows := fun _ _ => 0%nat;
     schedule := fun _ tasks => tasks;
     in_flight := 0%nat;
     read_asset := fun _ b =>
       Ok (fun _ _ => match b with B08 => 200%float | B04 => 100%float end);
     clip_mask := fun _ => Ok (fun _ _ => true) |}.

(** A catalog with no scene for the query, and one with a scene that
    lacks its cloud cover. *)
Definition with_catalog (found : list Item) : Env :=
  {| hash := sample_hash;
     search := fun _ => Ok found;
     sign := fun it => Ok it;
     stack_grid := fun _ _ => Ok (2%nat, 2%nat);
     more_windows := fun _ _ => 0%nat;
     schedule := fun _ tasks => tasks;
     in_flight := 0%nat;
     read_asset := fun _ b =>
       Ok (fun _ _ => match b with B08 => 200%float | B04 => 100%float end);
     clip_mask := fun _ => Ok (fun _ _ => true) |}.


(** What [compute_ndvi_workflow] returns over [tile_a] in [green]. *)
Definition no_result : Result :=
  {| ndvi_data := grid_of_rows []; ndvi_img := grid_of_rows [];
     result_statistics :=
       {| stat_mean := nan; stat_min := nan; stat_max := nan |} |}.

Definition green_result : Result :=
  match (compute_ndvi_workflow green [tile_a] [square_10km]).1 with
  | Done (Some r) => r
  | _ => no_result
  end.
End MoreSamples.

(** An event that, if it is a signing, is the signing of one of [items]. *)
Definition signs_within (items : list Item) (ev : event) : Prop :=
  forall id, ev = Sign id -> exists it, it ∈ items /\ item_id it = id.

(** * Part III: facts *)

(** ** The order of binary64 *)

Module F64Facts.
Import F64.
Local Open Scope Z_scope.

Lemma SFcompare_rank x y a b :
  rank x = Some a -> rank y = Some b ->
  exists c, SFcompare x y = Some c /\
    (c = Lt <-> lex_lt a b) /\ (c = Eq <-> a = b) /\ (c = Gt <-> lex_lt b a).
Proof.
  unfold lex_lt.
  destruct x as [sx|sx| |sx mx ex], y as [sy|sy| |sy my ey]; simpl;
    intros Ha Hb; try discriminate; simplify_eq; simpl;
    repeat match goal with s : bool |- _ => destruct s end; simpl;
    try (eexists; split; [reflexivity|];
         repeat split; intros; try discriminate; try lia; try congruence;
         fail).
  all: rewrite Pos.compare_cont_spec; simpl.
  all: destruct (Z.compare_spec ex ey), (Pos.compare_spec mx my); simpl;
    (eexists; split; [reflexivity|];
     repeat split; intros; try discriminate; try lia;
     try (simplify_eq; lia); try (subst; reflexivity)).
Qed.

Lemma SFcompare_nan_l x y : rank x = None -> SFcompare x y = None.
Proof. destruct x; simpl; congruence. Qed.

Lemma SFcompare_nan_r x y : rank y = None -> SFcompare x y = None.
Proof. destruct x, y; simpl; congruence. Qed.

Lemma is_nan_key x : is_nan x = true <-> key x = None.
Proof.
  unfold is_nan, key. rewrite FloatAxioms.eqb_spec. unfold SFeqb.
  destruct (rank (Prim2SF x)) as [a|] eqn:Ha.
  - destruct (SFcompare_rank _ _ _ _ Ha Ha) as (c & -> & _ & HEq & _).
    assert (c = Eq) as -> by (apply HEq; reflexivity).
    simpl. split; discriminate.
  - rewrite SFcompare_nan_l by assumption. simpl. tauto.
Qed.

Lemma not_nan_key x : is_nan x = false <-> exists a, key x = Some a.
Proof.
  pose proof (is_nan_key x) as H.
  destruct (is_nan x), (key x) as [a|]; split; intros; try congruence;
    try (eexists; reflexivity).
  - destruct H as [H _]. specialize (H eq_refl). discriminate.
  - destruct H0 as [? ?]. discriminate.
  - destruct H as [_ H]. specialize (H eq_refl). discriminate.
Qed.

Lemma ltb_key x y a b :
  key x = Some a -> key y = Some b ->
  (PrimFloat.ltb x y = true <-> lex_lt a b).
Proof.
  intros Ha Hb. rewrite ltb_spec. unfold SFltb.
  destruct (SFcompare_rank _ _ _ _ Ha Hb) as (c & -> & HLt & _).
  rewrite <- HLt. destruct c; split; congruence.
Qed.

Lemma leb_key x y a b :
  key x = Some a -> key y = Some b ->
  (PrimFloat.leb x y = true <-> lex_lt a b \/ a = b).
Proof.
  intros Ha Hb. rewrite leb_spec. unfold SFleb.
  destruct (SFcompare_rank _ _ _ _ Ha Hb) as (c & -> & HLt & HEq & HGt).
  rewrite <- HLt, <- HEq.
  destruct c; split; try congruence; try tauto.
  intros [?|?]; discriminate.
Qed.

Lemma ltb_nan_l x y : is_nan x = true -> PrimFloat.ltb x y = false.
Proof.
  rewrite is_nan_key, ltb_spec. unfold SFltb, key. intros H.
  now rewrite SFcompare_nan_l.
Qed.

Lemma ltb_nan_r x y : is_nan y = true -> PrimFloat.ltb x y = false.
Proof.
  rewrite is_nan_key, ltb_spec. unfold SFltb, key. intros H.
  now rewrite SFcompare_nan_r.
Qed.

(** The facts the development uses, free of ranks. *)

Lemma lex_lt_trans a b c : lex_lt a b -> lex_lt b c -> lex_lt a c.
Proof. unfold lex_lt. lia. Qed.

Lemma lex_lt_irrefl a : ~ lex_lt a a.
Proof. unfold lex_lt. lia. Qed.

Lemma lex_total a b : lex_lt a b \/ a = b \/ lex_lt b a.
Proof.
  destruct a as [[a1 a2] a3], b as [[b1 b2] b3]. unfold lex_lt. simpl.
  destruct (Z.lt_total a1 b1) as [?|[ -> |?]]; [lia| |lia].
  destruct (Z.lt_total a2 b2) as [?|[ -> |?]]; [lia| |lia].
  destruct (Z.lt_total a3 b3) as [?|[ -> |?]]; [lia| |lia].
  right; left; reflexivity.
Qed.

Lemma leb_refl x : is_nan x = false -> PrimFloat.leb x x = true.
Proof.
  intros [a Ha]%not_nan_key. apply (leb_key _ _ _ _ Ha Ha). now right.
Qed.

Lemma ltb_leb x y :
  is_nan x = false -> is_nan y = false ->
  PrimFloat.ltb x y = true -> PrimFloat.leb x y = true.
Proof.
  intros [a Ha]%not_nan_key [b Hb]%not_nan_key.
  rewrite (ltb_key _ _ _ _ Ha Hb), (leb_key _ _ _ _ Ha Hb). tauto.
Qed.

Lemma not_ltb_leb x y :
  is_nan x = false -> is_nan y = false ->
  PrimFloat.ltb x y = false -> PrimFloat.leb y x = true.
Proof.
  intros [a Ha]%not_nan_key [b Hb]%not_nan_key H.
  apply (leb_key _ _ _ _ Hb Ha).
  destruct (lex_total a b) as [Hlt|[ -> |Hgt]]; auto.
  apply (ltb_key _ _ _ _ Ha Hb) in Hlt. congruence.
Qed.

Lemma leb_trans x y z :
  is_nan x = false -> is_nan y = false -> is_nan z = false ->
  PrimFloat.leb x y = true -> PrimFloat.leb y z = true ->
  PrimFloat.leb x z = true.
Proof.
  intros [a Ha]%not_nan_key [b Hb]%not_nan_key [c Hc]%not_nan_key.
  rewrite (leb_key _ _ _ _ Ha Hb), (leb_key _ _ _ _ Hb Hc),
    (leb_key _ _ _ _ Ha Hc).
  intros [?| ->] [?| ->]; eauto using lex_lt_trans.
Qed.

Lemma leb_ltb_trans x y z :
  is_nan x = false -> is_nan y = false -> is_nan z = false ->
  PrimFloat.leb x y = true -> PrimFloat.ltb y z = true ->
  PrimFloat.ltb x z = true.
Proof.
  intros [a Ha]%not_nan_key [b Hb]%not_nan_key [c Hc]%not_nan_key.
  rewrite (leb_key _ _ _ _ Ha Hb), (ltb_key _ _ _ _ Hb Hc),
    (ltb_key _ _ _ _ Ha Hc).
  intros [?| ->] ?; eauto using lex_lt_trans.
Qed.

Lemma ltb_not_leb x y :
  is_nan x = false -> is_nan y = false ->
  PrimFloat.ltb x y = true -> PrimFloat.leb y x = false.
Proof.
  intros [a Ha]%not_nan_key [b Hb]%not_nan_key.
  rewrite (ltb_key _ _ _ _ Ha Hb). intros Hlt.
  destruct (PrimFloat.leb y x) eqn:E; [|reflexivity].
  apply (leb_key _ _ _ _ Hb Ha) in E. exfalso.
  destruct E as [?| ->]; eapply lex_lt_irrefl; eauto using lex_lt_trans.
Qed.
End F64Facts.

(** *** Facts about [traverse], [enumerate] and [idxmin] *)

Lemma traverse_Ok {A B} (f : A -> res B) (l : list A) :
  (forall x, x ∈ l -> exists y, f x = Ok y) ->
  exists ys, traverse f l = Ok ys /\ Forall2 (fun x y => f x = Ok y) l ys.
Proof.
  induction l as [|x l IH]; intros Hf; simpl.
  - exists []. split; [reflexivity|constructor].
  - destruct (Hf x) as [y Hy]; [left|].
    destruct IH as (ys & Hys & HF).
    { intros z Hz. apply Hf. now right. }
    exists (y :: ys). rewrite Hy, Hys. simpl. split; [reflexivity|].
    constructor; assumption.
Qed.

Lemma traverse_Raise {A B} (f : A -> res B) (l : list A) e :
  (forall x, x ∈ l -> f x = Raise e \/ exists y, f x = Ok y) ->
  (exists x, x ∈ l /\ f x = Raise e) ->
  traverse f l = Raise e.
Proof.
  induction l as [|x l IH]; intros Hall (z & Hz & Hfz).
  - inversion Hz.
  - simpl. destruct (Hall x) as [Hx|[y Hy]]; [left| |].
    + now rewrite Hx.
    + rewrite Hy. simpl. rewrite IH; [reflexivity| |].
      * intros w Hw. apply Hall. now right.
      * apply elem_of_cons in Hz as [->|Hz]; [congruence|eauto].
Qed.

Lemma enumerate_lookup {A} (l : list A) k p x :
  (p, x) ∈ enumerate k l <-> exists i, p = k + i /\ l !! i = Some x.
Proof.
  revert k. induction l as [|y l IH]; intros k; simpl.
  - split; [intros H; inversion H|intros (i & _ & H); discriminate].
  - rewrite elem_of_cons, IH. split.
    + intros [[= -> ->]|(i & -> & Hi)].
      * exists 0. split; [lia|reflexivity].
      * exists (S i). split; [lia|assumption].
    + intros ([|i] & -> & Hi); simpl in Hi.
      * left. injection Hi as ->. f_equal. lia.
      * right. exists i. split; [lia|assumption].
Qed.

(** The minimum of a group, in terms of the frame: the selected label is
    the first row of the group whose cloud value is the least. *)
Lemma idxmin_group (Q : Row -> Prop) `{!forall r, Decision (Q r)}
    (rows : list Row) (k : nat) :
  Forall (fun r => is_nan (row_cloud r) = false) rows ->
  match idxmin (prod_map id row_cloud <$>
                filter (fun ir => Q ir.2) (enumerate k rows)) with
  | None => forall i r, rows !! i = Some r -> ~ Q r
  | Some (p, c) =>
      exists i r, p = k + i /\ rows !! i = Some r /\ Q r /\ c = row_cloud r /\
        forall j r', rows !! j = Some r' -> Q r' ->
          PrimFloat.leb c (row_cloud r') = true /\
          (j < i -> PrimFloat.ltb c (row_cloud r') = true)
  end.
Proof.
  intros Hnan. revert k.
  induction Hnan as [|r rows Hr Hnan IH]; intros k; simpl.
  - intros i r Hi. discriminate.
  - rewrite filter_cons. simpl. specialize (IH (S k)).
    assert (forall j r', rows !! j = Some r' -> is_nan (row_cloud r') = false)
      as Hlook.
    { intros j r' Hj. rewrite Forall_forall in Hnan. apply Hnan.
      eapply list_elem_of_lookup_2; eauto. }
    destruct (decide (Q r)) as [HQ|HQ]; simpl.
    + rewrite Hr.
      destruct (idxmin _) as [[p d]|].
      * destruct IH as (i & r0 & -> & Hi & HQ0 & -> & Hmin).
        pose proof (Hlook _ _ Hi) as Hr0.
        destruct (PrimFloat.ltb (row_cloud r0) (row_cloud r)) eqn:Hlt.
        -- exists (S i), r0.
           split; [lia|]. split; [done|]. split; [done|]. split; [done|].
           intros [|j] r' Hj HQ'; simpl in Hj; simplify_eq.
           ++ split; [now apply F64Facts.ltb_leb|done].
           ++ destruct (Hmin j r' Hj HQ') as [Hle Hlt'].
              split; [done|]. intros ?. apply Hlt'. lia.
        -- exists 0, r.
           split; [lia|]. split; [done|]. split; [done|]. split; [done|].
           intros [|j] r' Hj HQ'; simpl in Hj; simplify_eq.
           ++ split; [now apply F64Facts.leb_refl|lia].
           ++ split; [|lia].
              apply (F64Facts.leb_trans _ (row_cloud r0)); eauto.
              ** now apply F64Facts.not_ltb_leb.
              ** now apply (Hmin j).
      * exists 0, r.
        split; [lia|]. split; [done|]. split; [done|]. split; [done|].
        intros [|j] r' Hj HQ'; simpl in Hj; simplify_eq.
        -- split; [now apply F64Facts.leb_refl|lia].
        -- exfalso. eapply IH; eauto.
    + destruct (idxmin _) as [[p d]|].
      * destruct IH as (i & r0 & -> & Hi & HQ0 & -> & Hmin).
        exists (S i), r0.
        split; [lia|]. split; [done|]. split; [done|]. split; [done|].
        intros [|j] r' Hj HQ'; simpl in Hj; simplify_eq; [contradiction|].
        destruct (Hmin j r' Hj HQ') as [Hle Hlt'].
        split; [done|]. intros ?. apply Hlt'. lia.
      * intros [|i] r0 Hi; simpl in Hi; simplify_eq; eauto.
Qed.

Section DeduplicationFacts.
Variable hash : string -> Z.

Lemma make_rows (items : list Item) :
  Forall cloud_known items ->
  exists rows, traverse (make_row hash) items = Ok rows /\
    Forall2 (fun it r => make_row hash it = Ok r) items rows /\
    Forall (fun r => is_nan (row_cloud r) = false) rows.
Proof.
  intros Hc.
  destruct (traverse_Ok (make_row hash) items) as (rows & Hrows & HF).
  { intros it Hit. rewrite Forall_forall in Hc.
    destruct (Hc it Hit) as (c & Hcc & _).
    unfold make_row. rewrite Hcc. eauto. }
  exists rows. split; [done|]. split; [done|].
  clear Hrows. induction HF as [|it r items rows Hr HF IH]; constructor.
  - apply Forall_cons in Hc as [(c & Hcc & Hn) _].
    unfold make_row in Hr. rewrite Hcc in Hr. now simplify_eq.
  - apply IH. now apply Forall_cons in Hc as [_ ?].
Qed.

Lemma row_first_min_unique rows p r p' r' :
  Forall (fun r => is_nan (row_cloud r) = false) rows ->
  row_first_min rows p r -> row_first_min rows p' r' ->
  row_hash r = row_hash r' -> p = p'.
Proof.
  intros Hnan [Hp Hmin] [Hp' Hmin'] Hh.
  assert (is_nan (row_cloud r) = false /\ is_nan (row_cloud r') = false)
    as [Hr Hr'].
  { rewrite Forall_forall in Hnan.
    split; apply Hnan; eapply list_elem_of_lookup_2; eauto. }
  destruct (Hmin p' r' Hp' (eq_sym Hh)) as [Hle Hlt].
  destruct (Hmin' p r Hp Hh) as [Hle' Hlt'].
  destruct (Nat.lt_trichotomy p p') as [H|[H|H]]; [|done|].
  - specialize (Hlt' H).
    rewrite (F64Facts.ltb_not_leb _ _ Hr' Hr Hlt') in Hle. discriminate.
  - specialize (Hlt H).
    rewrite (F64Facts.ltb_not_leb _ _ Hr Hr' Hlt) in Hle'. discriminate.
Qed.

Lemma groupby_idxmin_spec (rows : list Row) :
  Forall (fun r => is_nan (row_cloud r) = false) rows ->
  exists labels, groupby_idxmin rows = Ok labels /\
    (forall p, p ∈ labels <-> exists r, row_first_min rows p r) /\
    (forall i r, rows !! i = Some r ->
       exists p r0, row_first_min rows p r0 /\ row_hash r0 = row_hash r).
Proof.
  intros Hnan. unfold groupby_idxmin.
  set (f := fun h : Z => match idxmin _ with Some _ => _ | None => _ end).
  assert (forall h r i, rows !! i = Some r -> row_hash r = h ->
            exists p r0, f h = Ok p /\ row_first_min rows p r0 /\
                         row_hash r0 = h) as Hf.
  { intros h r i Hi Hh. unfold f, group.
    pose proof (idxmin_group (fun r => row_hash r = h) rows 0 Hnan) as Hg.
    destruct (idxmin _) as [[p c]|].
    - destruct Hg as (i0 & r0 & -> & Hi0 & Hh0 & -> & Hmin).
      exists i0, r0. split; [done|]. split; [|done].
      split; [done|]. intros j r' Hj Hr'. apply Hmin; congruence.
    - exfalso. eapply Hg; eauto. }
  destruct (traverse_Ok f (group_keys rows)) as (labels & Hl & HF).
  { intros h Hh. unfold group_keys in Hh.
    apply elem_of_remove_dups, list_elem_of_fmap in Hh as (r & -> & Hr).
    apply list_elem_of_lookup in Hr as [i Hi].
    destruct (Hf _ r i Hi eq_refl) as (p & _ & Hp & _). eauto. }
  exists labels. split; [done|]. split.
  2:{ intros i r Hi.
      destruct (Hf _ r i Hi eq_refl) as (p & r0 & _ & ? & ?). eauto. }
  intros p. split.
  - intros Hp. apply list_elem_of_lookup in Hp as [n Hn].
    destruct (Forall2_lookup_r _ _ _ _ _ HF Hn) as (h & Hh & Hfh).
    apply list_elem_of_lookup_2 in Hh. unfold group_keys in Hh.
    apply elem_of_remove_dups, list_elem_of_fmap in Hh as (r & -> & Hr).
    apply list_elem_of_lookup in Hr as [i Hi].
    destruct (Hf _ r i Hi eq_refl) as (p' & r0 & Hp' & Hmin & _).
    rewrite Hfh in Hp'. simplify_eq. eauto.
  - intros (r & Hmin).
    assert (row_hash r ∈ group_keys rows) as Hk.
    { unfold group_keys. apply elem_of_remove_dups, list_elem_of_fmap.
      exists r. split; [done|].
      eapply list_elem_of_lookup_2. apply Hmin. }
    apply list_elem_of_lookup in Hk as [n Hn].
    destruct (Forall2_lookup_l _ _ _ _ _ HF Hn) as (p' & Hp' & Hfh).
    destruct (Hf _ r p (proj1 Hmin) eq_refl) as (p0 & r0 & Hp0 & Hmin0 & Hh0).
    rewrite Hfh in Hp0. simplify_eq.
    rewrite (row_first_min_unique rows p r p0 r0); auto.
    eapply list_elem_of_lookup_2; eauto.
Qed.

Lemma loc_spec (rows : list Row) (labels : list nat) :
  (forall p, p ∈ labels -> is_Some (rows !! p)) ->
  exists best, loc rows labels = Ok best /\
    Forall2 (fun p r => rows !! p = Some r) labels best.
Proof.
  intros Hl.
  destruct (traverse_Ok
              (fun i => match rows !! i with
                        | Some r => Ok r
                        | None => Raise (KeyError "label")
                        end) labels) as (best & Hb & HF).
  { intros p Hp. destruct (Hl p Hp) as [r ->]. eauto. }
  exists best. split; [done|].
  eapply Forall2_impl; [apply HF|].
  intros p r. simpl. destruct (rows !! p); congruence.
Qed.

Lemma GeoDataFrame_Ok (items : list Item) (rows : list Row) :
  Forall2 (fun it r => make_row hash it = Ok r) items rows ->
  items <> [] -> GeoDataFrame rows = Ok rows.
Proof. intros HF Hne. destruct HF; done. Qed.

Lemma make_row_Ok (it : Item) (r : Row) :
  make_row hash it = Ok r ->
  row_id r = item_id it /\ cloud_cover it = Some (row_cloud r) /\
  row_hash r = footprint_key hash it.
Proof.
  unfold make_row. destruct (cloud_cover it); intros [= <-]. done.
Qed.
End DeduplicationFacts.

Lemma filter_unique {A} (P : A -> Prop) `{!forall x, Decision (P x)}
    (l : list A) (i : nat) (b : A) :
  l !! i = Some b -> P b ->
  (forall j c, l !! j = Some c -> P c -> j = i) ->
  filter P l = [b].
Proof.
  revert i. induction l as [|x l IH]; intros i Hi Hb Huniq; [done|].
  destruct i as [|i]; simpl in Hi.
  - injection Hi as ->. rewrite filter_cons_True by done. f_equal.
    clear IH. induction l as [|y l IH]; [done|].
    rewrite filter_cons_False.
    + apply IH. intros [|j] c Hj Hc; [done|].
      specialize (Huniq (S (S j)) c Hj Hc). lia.
    + intros Hy. specialize (Huniq 1 y eq_refl Hy). lia.
  - rewrite filter_cons_False.
    + apply (IH i); [done..|].
      intros j c Hj Hc. specialize (Huniq (S j) c Hj Hc). lia.
    + intros Hx. specialize (Huniq 0 x eq_refl Hx). lia.
Qed.

(** *** Facts about the NaN-skipping reductions *)

Lemma nanmax_cases (l : list float) :
  (is_nan (nanmax l) = true /\ Forall (fun v => is_nan v = true) l) \/
  (is_nan (nanmax l) = false /\ nanmax l ∈ l /\
   forall v, v ∈ l -> is_nan v = false ->
             PrimFloat.leb v (nanmax l) = true).
Proof.
  induction l as [|a l IH]; simpl.
  - left. split; [reflexivity|constructor].
  - unfold fmax. fold (nanmax l).
    destruct (is_nan a) eqn:Ha.
    + destruct IH as [[Hm Hall]|(Hm & Hin & Hmax)].
      * left. split; [done|]. by constructor.
      * right. split; [done|]. split; [by right|].
        intros v [->|Hv]%elem_of_cons Hnv; [congruence|auto].
    + destruct (is_nan (nanmax l)) eqn:Hm.
      * destruct IH as [[_ Hall]|(Hm' & _)]; [|congruence].
        right. split; [done|]. split; [by left|].
        intros v [->|Hv]%elem_of_cons Hnv; [by apply F64Facts.leb_refl|].
        rewrite Forall_forall in Hall. rewrite (Hall v Hv) in Hnv. done.
      * destruct IH as [[Hm' _]|(_ & Hin & Hmax)]; [congruence|].
        destruct (PrimFloat.ltb a (nanmax l)) eqn:Hlt.
        -- right. split; [done|]. split; [by right|].
           intros v [->|Hv]%elem_of_cons Hnv; [by apply F64Facts.ltb_leb|auto].
        -- right. split; [done|]. split; [by left|].
           intros v [->|Hv]%elem_of_cons Hnv; [by apply F64Facts.leb_refl|].
           apply (F64Facts.leb_trans _ (nanmax l)); auto.
           by apply F64Facts.not_ltb_leb.
Qed.

Lemma nanmin_cases (l : list float) :
  (is_nan (nanmin l) = true /\ Forall (fun v => is_nan v = true) l) \/
  (is_nan (nanmin l) = false /\ nanmin l ∈ l /\
   forall v, v ∈ l -> is_nan v = false ->
             PrimFloat.leb (nanmin l) v = true).
Proof.
  induction l as [|a l IH]; simpl.
  - left. split; [reflexivity|constructor].
  - unfold fmin. fold (nanmin l).
    destruct (is_nan a) eqn:Ha.
    + destruct IH as [[Hm Hall]|(Hm & Hin & Hmin)].
      * left. split; [done|]. by constructor.
      * right. split; [done|]. split; [by right|].
        intros v [->|Hv]%elem_of_cons Hnv; [congruence|auto].
    + destruct (is_nan (nanmin l)) eqn:Hm.
      * destruct IH as [[_ Hall]|(Hm' & _)]; [|congruence].
        right. split; [done|]. split; [by left|].
        intros v [->|Hv]%elem_of_cons Hnv; [by apply F64Facts.leb_refl|].
        rewrite Forall_forall in Hall. rewrite (Hall v Hv) in Hnv. done.
      * destruct IH as [[Hm' _]|(_ & Hin & Hmin)]; [congruence|].
        destruct (PrimFloat.ltb (nanmin l) a) eqn:Hlt.
        -- right. split; [done|]. split; [by right|].
           intros v [->|Hv]%elem_of_cons Hnv; [by apply F64Facts.ltb_leb|auto].
        -- right. split; [done|]. split; [by left|].
           intros v [->|Hv]%elem_of_cons Hnv; [by apply F64Facts.leb_refl|].
           apply (F64Facts.leb_trans _ (nanmin l)); auto.
           by apply F64Facts.not_ltb_leb.
Qed.


Lemma elem_of_cells (g : Grid) (v : float) :
  v ∈ cells g <-> exists y x, y < ny g /\ x < nx g /\ v = cell g y x.
Proof.
  unfold cells. rewrite list_elem_of_bind. split.
  - intros (y & Hv & Hy). apply list_elem_of_fmap in Hv as (x & -> & Hx).
    apply elem_of_seq in Hy, Hx. exists y, x. repeat split; lia.
  - intros (y & x & Hy & Hx & ->). exists y. split.
    + apply list_elem_of_fmap. exists x. split; [done|].
      apply elem_of_seq. lia.
    + apply elem_of_seq. lia.
Qed.

Lemma elem_of_series (c : Cube) (y x : nat) (v : float) :
  v ∈ series c y x <-> exists t, t < nt c /\ v = voxel c t y x.
Proof.
  unfold series. rewrite list_elem_of_fmap. split.
  - intros (t & -> & Ht). apply elem_of_seq in Ht. exists t. split; [lia|done].
  - intros (t & Ht & ->). exists t. split; [done|]. apply elem_of_seq. lia.
Qed.

Lemma forallb_is_nan (l : list float) :
  forallb is_nan l = true <-> Forall (fun v => is_nan v = true) l.
Proof.
  induction l as [|a l IH]; simpl.
  - split; [constructor|done].
  - rewrite andb_true_iff, Forall_cons, IH. tauto.
Qed.

(** *** Facts about computations *)

Lemma bindM_Done {A B} (m : M A) (f : A -> M B) (b : B) (log : list event) :
  bindM m f = (Done b, log) ->
  exists a l1 l2, m = (Done a, l1) /\ f a = (Done b, l2) /\ log = l1 ++ l2.
Proof.
  destruct m as [[a| |] l1]; simpl; try discriminate.
  destruct (f a) as [r l2] eqn:Hf. intros [= -> <-]. eauto 6.
Qed.

Lemma bindM_Done_l {A B} (a : A) (l : list event) (f : A -> M B) :
  bindM (Done a, l) f = ((f a).1, l ++ (f a).2).
Proof. simpl. now destruct (f a). Qed.

Lemma bindM_Stopped_l {A B} (l : list event) (f : A -> M B) :
  bindM (Stopped, l) f = (Stopped, l).
Proof. reflexivity. Qed.

Lemma bindM_not_Stopped {A B} (m : M A) (f : A -> M B) :
  m.1 <> Stopped -> (forall a, (f a).1 <> Stopped) ->
  (bindM m f).1 <> Stopped.
Proof.
  destruct m as [[a| |] l1]; simpl; intros Hm Hf; try done.
  specialize (Hf a). destruct (f a) as [r l2]. done.
Qed.

Lemma lift_not_Stopped {A} (r : res A) : (lift r).1 <> Stopped.
Proof. destruct r; done. Qed.

Lemma for_each_not_Stopped {A B} (f : A -> M B) (l : list A) :
  (forall a, (f a).1 <> Stopped) -> (for_each f l).1 <> Stopped.
Proof.
  intros Hf. induction l as [|x l IH]; simpl; [done|].
  apply bindM_not_Stopped; [done|]. intros y.
  apply bindM_not_Stopped; [done|]. done.
Qed.

Lemma for_each_cons {A B} (f : A -> M B) (x : A) (l : list A) :
  for_each f (x :: l) = (y <~ f x ;; ys <~ for_each f l ;; ret (y :: ys)).
Proof. reflexivity. Qed.

Lemma reads_app (l1 l2 : list event) : reads (l1 ++ l2) = reads l1 + reads l2.
Proof. unfold reads. now rewrite List.filter_app, length_app. Qed.

(** *** The read tasks of a materialisation *)

Lemma attempts_log (items : list Item) (tasks : list (nat * Band)) :
  Forall (fun t => t.1 < length items) tasks ->
  Forall (reading items) (tasks ≫= attempt items) /\
  Forall (fun ev => is_read ev = true) (tasks ≫= attempt items) /\
  reads (tasks ≫= attempt items) = length tasks /\
  (forall i it b, items !! i = Some it -> (i, b) ∈ tasks ->
     Read (item_id it) b ∈ (tasks ≫= attempt items)).
Proof.
  induction 1 as [|[i b] tasks Hi _ IH].
  - repeat split; try constructor. intros i it b _ Hin.
    by apply elem_of_nil in Hin.
  - destruct IH as (Hreading & Hread & Hcount & Hmem).
    simpl in Hi. apply lookup_lt_is_Some_2 in Hi as [it Hit].
    rewrite bind_cons. unfold attempt at 1 3 5 7. simpl. rewrite Hit.
    split; [|split; [|split]].
    + constructor; [|done]. exists it, b. split; [|done].
      by eapply list_elem_of_lookup_2.
    + by constructor.
    + change (reads (?x :: ?l)) with (reads ([x] ++ l)).
      rewrite reads_app, Hcount. reflexivity.
    + intros j it' b' Hj [[= -> ->]|Hin]%elem_of_cons.
      * rewrite Hit in Hj. injection Hj as ->. left.
      * right. eauto.
Qed.

Section RunFacts.
Variable env : Env.

Lemma scheduled_Permutation (k : nat) (tasks : list (nat * Band)) :
  scheduled env k tasks ≡ₚ tasks.
Proof. unfold scheduled. destruct (decide _); done. Qed.

Lemma elem_of_read_tasks (items : list Item) (grid : nat * nat)
    (t : nat * Band) :
  t ∈ read_tasks env items grid <-> t.1 < length items.
Proof.
  unfold read_tasks. rewrite list_elem_of_bind. split.
  - intros ([i it] & Ht & (j & -> & Hj)%enumerate_lookup).
    cbn [fst snd] in Ht. apply lookup_lt_Some in Hj.
    apply elem_of_app in Ht as [Ht|Ht];
      apply elem_of_replicate in Ht as [-> _]; simpl; lia.
  - intros [it Hit]%lookup_lt_is_Some_2. exists (t.1, it). split.
    + destruct t as [i []]; cbn [fst snd]; apply elem_of_app; [left|right];
        apply elem_of_replicate; (split; [done|unfold windows; lia]).
    + apply enumerate_lookup. exists t.1. split; [lia|done].
Qed.

Lemma read_tasks_length (items : list Item) (grid : nat * nat) :
  length (read_tasks env items grid)
  = 2 * sum_list ((fun it => windows env it grid) <$> items).
Proof.
  unfold read_tasks. generalize 0 at 1 as k.
  induction items as [|it items IH]; intros k; [done|].
  change (enumerate k (it :: items)) with ((k, it) :: enumerate (S k) items).
  rewrite bind_cons, !length_app, !length_replicate, IH, fmap_cons.
  cbn [fst snd]. change (sum_list (?a :: ?l)) with (a + sum_list l). lia.
Qed.


Lemma run_reads_not_Stopped (items : list Item) (tasks : list (nat * Band)) :
  (run_reads env items tasks).1 <> Stopped.
Proof.
  induction tasks as [|t tasks IH]; simpl; [done|].
  destruct (read_task env items t); [|done].
  destruct (run_reads env items tasks) as [[u|e|] l]; simpl in *; done.
Qed.

Lemma run_reads_Done (items : list Item) (tasks : list (nat * Band)) u
    (log : list event) :
  run_reads env items tasks = (Done u, log) -> log = tasks ≫= attempt items.
Proof.
  revert log. induction tasks as [|t tasks IH]; intros log; simpl.
  - by intros [= _ <-].
  - destruct (read_task env items t); [|discriminate].
    destruct (run_reads env items tasks) as [[u'|e|] l]; try discriminate.
    intros [= _ <-]. f_equal. apply IH. by destruct u, u'.
Qed.

Lemma workflow_body_not_Stopped (items : list Item) (gdf : list Feature) :
  (workflow_body env items gdf).1 <> Stopped.
Proof.
  unfold workflow_body, compute, stack_of.
  repeat first
    [ apply bindM_not_Stopped
    | apply lift_not_Stopped
    | apply for_each_not_Stopped
    | apply run_reads_not_Stopped
    | intros ? ].
  all: try done.
  all: try (unfold sign_item;
            repeat first [ apply bindM_not_Stopped | apply lift_not_Stopped
                         | intros ? ]; done).
  destruct (statistics _); done.
Qed.

End RunFacts.

(** ** Further facts *)

(** *** What the deduplication selects *)

Section SelectionFacts.
Variable hash : string -> Z.

Lemma first_min_row (items : list Item) (rows : list Row) (p : nat)
    (b : Item) (r : Row) :
  Forall2 (fun it r => make_row hash it = Ok r) items rows ->
  items !! p = Some b -> rows !! p = Some r ->
  (row_first_min rows p r <-> first_min hash items p b).
Proof.
  intros HF Hb Hr.
  assert (make_row hash b = Ok r) as Hbr.
  { destruct (Forall2_lookup_l _ _ _ _ _ HF Hb) as (r' & Hr' & ?). congruence. }
  pose proof (make_row_Ok _ _ _ Hbr) as (Hid & Hcb & Hkb).
  split.
  - intros [_ Hmin]. split; [done|].
    intros j c cb cc Hj Hk Hcb' Hcc.
    destruct (Forall2_lookup_l _ _ _ _ _ HF Hj) as (rc & Hrc & Hmc).
    pose proof (make_row_Ok _ _ _ Hmc) as (_ & Hc1 & Hc2).
    simplify_eq. apply Hmin; [done|]. congruence.
  - intros [_ Hmin]. split; [done|].
    intros j r' Hj Hh.
    destruct (Forall2_lookup_r _ _ _ _ _ HF Hj) as (c & Hc & Hmc).
    pose proof (make_row_Ok _ _ _ Hmc) as (_ & Hc1 & Hc2).
    apply (Hmin j c); auto. congruence.
Qed.

(** What [filter_best_items] selects when every cloud cover is known: the
    items that carry the identifier of the first item of least cloud cover
    of some footprint key; every key has such an item. *)
Lemma filter_best_items_ids (items : list Item) :
  items <> [] ->
  Forall cloud_known items ->
  exists ids : list string,
    filter_best_items hash items
    = Ok (filter (fun it => item_id it ∈ ids) items) /\
    (forall s, s ∈ ids <->
       exists p b, first_min hash items p b /\ item_id b = s) /\
    (forall it, it ∈ items ->
       exists p b, first_min hash items p b /\
                   footprint_key hash b = footprint_key hash it).
Proof.
  intros Hne Hcloud.
  destruct (make_rows hash items Hcloud) as (rows & Hrows & HF & Hnan).
  destruct (groupby_idxmin_spec rows Hnan) as (labels & Hl & Hlab & Hex).
  destruct (loc_spec rows labels) as (best & Hb & HFb).
  { intros p [r [Hr _]]%Hlab. eauto. }
  exists (row_id <$> best). unfold filter_best_items.
  rewrite Hrows. simpl. rewrite (GeoDataFrame_Ok hash items rows HF Hne). simpl.
  rewrite Hl. simpl. rewrite Hb. simpl.
  split; [reflexivity|]. split.
  - intros s. rewrite list_elem_of_fmap. split.
    + intros (r & -> & Hr). apply list_elem_of_lookup in Hr as [n Hn].
      destruct (Forall2_lookup_r _ _ _ _ _ HFb Hn) as (p & Hp & Hpr).
      assert (exists r', row_first_min rows p r') as [r' Hmin].
      { apply Hlab. eapply list_elem_of_lookup_2; eauto. }
      assert (r' = r) as -> by (destruct Hmin; congruence).
      destruct (Forall2_lookup_r _ _ _ _ _ HF Hpr) as (b & Hb' & Hmb).
      exists p, b. split.
      * by apply (first_min_row items rows p b r HF Hb' Hpr).
      * pose proof (make_row_Ok _ _ _ Hmb) as (Hid & _ & _). done.
    + intros (p & b & Hmin & <-).
      destruct (Forall2_lookup_l _ _ _ _ _ HF (proj1 Hmin)) as (r & Hr & Hmb).
      exists r. split.
      { pose proof (make_row_Ok _ _ _ Hmb) as (Hid & _ & _). congruence. }
      assert (p ∈ labels) as Hpl.
      { apply Hlab. exists r.
        by apply (first_min_row items rows p b r HF (proj1 Hmin) Hr). }
      apply list_elem_of_lookup in Hpl as [n Hn].
      destruct (Forall2_lookup_l _ _ _ _ _ HFb Hn) as (r' & Hr' & Hpr).
      rewrite Hr in Hpr. simplify_eq. eapply list_elem_of_lookup_2; eauto.
  - intros it [q Hq]%list_elem_of_lookup.
    destruct (Forall2_lookup_l _ _ _ _ _ HF Hq) as (rq & Hrq & Hmq).
    destruct (Hex _ _ Hrq) as (p & r0 & Hmin & Hh).
    destruct (Forall2_lookup_r _ _ _ _ _ HF (proj1 Hmin)) as (b & Hpb & Hmb).
    exists p, b. split.
    + by apply (first_min_row items rows p b r0 HF Hpb (proj1 Hmin)).
    + pose proof (make_row_Ok _ _ _ Hmq) as (_ & _ & ?).
      pose proof (make_row_Ok _ _ _ Hmb) as (_ & _ & ?). congruence.
Qed.

Lemma first_min_unique (items : list Item) p b p' b' :
  Forall cloud_known items ->
  first_min hash items p b -> first_min hash items p' b' ->
  footprint_key hash b = footprint_key hash b' -> p = p' /\ b = b'.
Proof.
  intros Hc [Hp Hmin] [Hp' Hmin'] Hk.
  rewrite Forall_forall in Hc.
  destruct (Hc b) as (cb & Hcb & Hnb); [by eapply list_elem_of_lookup_2|].
  destruct (Hc b') as (cb' & Hcb' & Hnb'); [by eapply list_elem_of_lookup_2|].
  destruct (Hmin p' b' cb cb' Hp' (eq_sym Hk) Hcb Hcb') as [Hle Hlt].
  destruct (Hmin' p b cb' cb Hp Hk Hcb' Hcb) as [Hle' Hlt'].
  assert (p = p') as ->.
  { destruct (Nat.lt_trichotomy p p') as [H|[H|H]]; [|done|].
    - specialize (Hlt' H).
      rewrite (F64Facts.ltb_not_leb _ _ Hnb' Hnb Hlt') in Hle. discriminate.
    - specialize (Hlt H).
      rewrite (F64Facts.ltb_not_leb _ _ Hnb Hnb' Hlt) in Hle'. discriminate. }
  split; [done|congruence].
Qed.

Lemma NoDup_fmap_eq {A B} (f : A -> B) (l : list A) (x y : A) :
  NoDup (f <$> l) -> x ∈ l -> y ∈ l -> f x = f y -> x = y.
Proof.
  intros Hnd [i Hi]%list_elem_of_lookup [j Hj]%list_elem_of_lookup Hf.
  assert (i = j) as ->; [|congruence].
  eapply NoDup_lookup; [apply Hnd| |].
  - rewrite list_lookup_fmap, Hi. reflexivity.
  - rewrite list_lookup_fmap, Hj. simpl. congruence.
Qed.
End SelectionFacts.

Lemma filter_all {A} (P : A -> Prop) `{!forall x, Decision (P x)}
    (l : list A) :
  (forall x, x ∈ l -> P x) -> filter P l = l.
Proof.
  induction l as [|x l IH]; intros Hall; [done|].
  rewrite filter_cons_True by (apply Hall; left).
  f_equal. apply IH. intros y Hy. apply Hall. by right.
Qed.

Section SelectedFacts.
Variable hash : string -> Z.

(** With distinct identifiers the selected items are the first items of
    least cloud cover themselves, one for each footprint key. *)
Lemma selected_first_min (items : list Item) (ids : list string) :
  NoDup (item_id <$> items) ->
  (forall s, s ∈ ids <->
     exists p b, first_min hash items p b /\ item_id b = s) ->
  forall it, it ∈ filter (fun it => item_id it ∈ ids) items <->
             exists p, first_min hash items p it.
Proof.
  intros Hnd Hids it. rewrite list_elem_of_filter. split.
  - intros [(p & b & Hmin & Hid)%Hids Hit].
    assert (b = it) as <-; [|eauto].
    eapply (NoDup_fmap_eq item_id items); eauto.
    eapply list_elem_of_lookup_2. apply Hmin.
  - intros [p Hmin]. split.
    + apply Hids. eauto.
    + eapply list_elem_of_lookup_2. apply Hmin.
Qed.
End SelectedFacts.

(** *** NaN in binary64 arithmetic *)

Lemma is_nan_Prim2SF (x : float) : is_nan x = true <-> Prim2SF x = S754_nan.
Proof.
  rewrite F64Facts.is_nan_key. unfold F64.key.
  destruct (Prim2SF x); simpl; split; congruence.
Qed.

Lemma sub_nan (x y : float) :
  is_nan x = true \/ is_nan y = true -> is_nan (x - y)%float = true.
Proof.
  rewrite !is_nan_Prim2SF, sub_spec. unfold SF64sub.
  intros [-> | ->]; [reflexivity|]. by destruct (Prim2SF x).
Qed.

Lemma add_nan (x y : float) :
  is_nan x = true \/ is_nan y = true -> is_nan (x + y)%float = true.
Proof.
  rewrite !is_nan_Prim2SF, add_spec. unfold SF64add.
  intros [-> | ->]; [reflexivity|]. by destruct (Prim2SF x).
Qed.

Lemma div_nan (x y : float) :
  is_nan x = true \/ is_nan y = true -> is_nan (x / y)%float = true.
Proof.
  rewrite !is_nan_Prim2SF, div_spec. unfold SF64div.
  intros [-> | ->]; [reflexivity|]. by destruct (Prim2SF x).
Qed.

Lemma valid_no_valid (l : list float) :
  Forall (fun v => is_nan v = true) l -> valid l = [].
Proof.
  intros Hall. unfold valid. induction Hall as [|v l Hv _ IH]; [done|].
  rewrite filter_cons_False; [done|congruence].
Qed.

Lemma zero_filled_no_valid (l : list float) :
  Forall (fun v => is_nan v = true) l ->
  foldl PrimFloat.add 0%float (zero_filled l) = 0%float.
Proof.
  intros Hall. induction Hall as [|v l Hv _ IH]; [done|].
  unfold zero_filled. rewrite fmap_cons. simpl. rewrite Hv. exact IH.
Qed.

Lemma rows_sum_no_valid (rows : list (list float)) :
  Forall (Forall (fun v => is_nan v = true)) rows -> rows_sum rows = 0%float.
Proof.
  intros Hall. unfold rows_sum.
  induction Hall as [|row rows Hrow _ IH]; [done|].
  simpl. rewrite (zero_filled_no_valid row Hrow). exact IH.
Qed.

(** *** The depth of the halving in [pairwise_sum] *)

Lemma pairwise_sum_fuel (fuel : nat) (l : list float) :
  length l <= fuel -> pairwise_sum fuel l = pairwise_sum (length l) l.
Proof.
  assert (forall f1 f2 (k : list float),
            length k <= f1 -> length k <= f2 ->
            pairwise_sum f1 k = pairwise_sum f2 k) as H.
  { induction f1 as [|f1 IH]; intros f2 k H1 H2.
    - destruct k; [|simpl in H1; lia]. by destruct f2.
    - destruct f2 as [|f2].
      + destruct k; [|simpl in H2; lia]. done.
      + cbn [pairwise_sum]. cbv zeta.
        destruct (decide (length k <= 128)) as [|Hlong]; [done|].
        pose proof (Nat.div_mod_eq (length k) 2) as Hd.
        assert (length k mod 2 < 2) as Hm by (apply Nat.mod_upper_bound; lia).
        assert ((length k / 2) mod 8 < 8) as Hm8
          by (apply Nat.mod_upper_bound; lia).
        f_equal; apply IH; rewrite ?length_take, ?length_drop; lia. }
  intros Hf. by apply H.
Qed.

(** *** The data window of a mask *)




(** *** Logs and endings *)

Lemma bindM_Raised_l {A B} (e : exn) (l : list event) (f : A -> M B) :
  bindM (Raised e, l) f = (Raised e, l).
Proof. reflexivity. Qed.

Lemma announced_bind {A B} (m : M A) (f : A -> M B) :
  announced m -> (forall a, announced (f a)) -> announced (bindM m f).
Proof.
  unfold announced. destruct m as [[a|e|] l]; simpl; intros Hm Hf;
    [|done|intros _; by apply Hm].
  specialize (Hf a). destruct (f a) as [r l']. simpl in *.
  intros Hr. destruct (Hf Hr) as (u & Hu & Hl).
  exists u. split; [done|]. rewrite last_app, Hl. done.
Qed.

Lemma plots_bind {A B} (m : M A) (f : A -> M B) :
  (forall a, plots (f a)) -> plots (bindM m f).
Proof.
  unfold plots. destruct m as [[a|e|] l]; simpl; intros Hf; try done.
  specialize (Hf a). destruct (f a) as [r l']. simpl in *.
  intros b Hr. rewrite last_app, (Hf b Hr). done.
Qed.

Lemma not_Stopped_announced {A} (m : M A) : m.1 <> Stopped -> announced m.
Proof. unfold announced. done. Qed.

Section LogFacts.
Variable env : Env.

Lemma sign_loop_Done (items signed : list Item) (log : list event) :
  for_each (sign_item env) items = (Done signed, log) ->
  log = (fun it => Sign (item_id it)) <$> items /\
  Forall2 (fun it it' => sign env it = Ok it') items signed.
Proof.
  revert signed log. induction items as [|it items IH]; intros signed log.
  - intros [= <- <-]. split; [done|constructor].
  - rewrite for_each_cons. intros H.
    apply bindM_Done in H as (y & l1 & l2 & Hy & H & ->).
    apply bindM_Done in H as (ys & l3 & l4 & Hys & [= <- <-] & ->).
    apply IH in Hys as [-> HF]. unfold sign_item in Hy.
    apply bindM_Done in Hy as ([] & l5 & l6 & [= <-] & Hs & ->).
    destruct (sign env it) eqn:Hsig; simpl in Hs; [|discriminate].
    injection Hs as <- <-. simpl. rewrite !app_nil_r.
    split; [reflexivity|]. by constructor.
Qed.

Lemma sign_loop_reads (items : list Item) :
  reads (for_each (sign_item env) items).2 = 0.
Proof.
  induction items as [|it items IH]; [done|].
  rewrite for_each_cons. unfold sign_item at 1.
  destruct (sign env it) as [it'|e]; simpl.
  - destruct (for_each (sign_item env) items) as [[ys|e|] l]; simpl in *;
      rewrite ?app_nil_r; unfold reads in *; simpl; done.
  - done.
Qed.

Lemma sign_loop_Raised (items : list Item) :
  (exists it, it ∈ items /\ exists e, sign env it = Raise e) ->
  exists e, (for_each (sign_item env) items).1 = Raised e /\
            exists it, it ∈ items /\ sign env it = Raise e.
Proof.
  induction items as [|it items IH]; intros (x & Hx & e & He).
  - by apply elem_of_nil in Hx.
  - rewrite for_each_cons. unfold sign_item at 1.
    destruct (sign env it) as [it'|e'] eqn:Hsig; simpl.
    + apply elem_of_cons in Hx as [->|Hx]; [congruence|].
      destruct IH as (e0 & Hr & y & Hy & Hye); [eauto|].
      destruct (for_each (sign_item env) items) as [[ys|e1|] l];
        simpl in *; try done.
      exists e0. split; [done|]. exists y. split; [by right|done].
    + exists e'. split; [done|]. exists it. split; [left|done].
Qed.

Lemma compute_ndvi_workflow_not_Stopped (items : list Item)
    (gdf : list Feature) :
  (compute_ndvi_workflow env items gdf).1 <> Stopped.
Proof.
  pose proof (workflow_body_not_Stopped env items gdf) as Hns.
  unfold compute_ndvi_workflow, try_except.
  destruct (workflow_body env items gdf) as [[r|e|] l]; simpl in *; done.
Qed.

Lemma load_aoi_log uploaded all_drawings :
  Forall (fun ev => network ev = false) (load_aoi uploaded all_drawings).2.
Proof.
  unfold load_aoi. destruct uploaded as [[g|e]|]; simpl.
  - repeat constructor.
  - repeat constructor.
  - destruct all_drawings; simpl; repeat constructor.
Qed.

Lemma load_aoi_announced uploaded all_drawings :
  announced (load_aoi uploaded all_drawings).
Proof.
  unfold announced, load_aoi. destruct uploaded as [[g|e]|]; simpl; try done.
  destruct all_drawings; simpl; [|done].
  intros _. exists ErrorNoAOI. split; [by left|done].
Qed.

Lemma area_validation_announced (gdf : list Feature) :
  announced (area_validation gdf).
Proof.
  unfold announced, area_validation. destruct gdf as [|f rest]; [done|].
  cbv zeta. destruct (PrimFloat.ltb _ _); simpl; [|done].
  intros _. eexists. split; [right; left; eauto|done].
Qed.
End LogFacts.

Section WorkflowFacts.
Variable env : Env.

Lemma lazy_composite_inv items grid mask window (k : nat) (g : Grid)
    (log : list event) :
  lazy_composite env items grid mask window k = (Done g, log) ->
  log = scheduled env k (read_tasks env items grid) ≫= attempt items /\
  g = max_time (index_grid
                  (isel_window (clip (stack_values env items grid) mask)
                               window)).
Proof.
  unfold lazy_composite, stack_of. intros H.
  apply bindM_Done in H as (c & l1 & l2 & H & [= <- <-] & ->).
  apply bindM_Done in H as (s & l3 & l4 & H & [= <- <-] & ->).
  apply bindM_Done in H as (s' & l5 & l6 & H & [= <- <-] & ->).
  apply bindM_Done in H as (u & l7 & l8 & H & [= <- <-] & ->).
  apply run_reads_Done in H as ->. rewrite !app_nil_r. done.
Qed.

(** The log of a materialisation that succeeds. *)
Lemma materialisation_log (signed : list Item) (grid : nat * nat) (k : nat) :
  let log := scheduled env k (read_tasks env signed grid) ≫= attempt signed in
  log ≡ₚ read_tasks env signed grid ≫= attempt signed /\
  Forall (reading signed) log /\
  Forall (fun ev => is_read ev = true) log /\
  reads log = 2 * sum_list ((fun it => windows env it grid) <$> signed) /\
  (forall it b, it ∈ signed -> Read (item_id it) b ∈ log).
Proof.
  intros log. unfold log.
  pose proof (scheduled_Permutation env k (read_tasks env signed grid)) as Hp.
  assert (Forall (fun t : nat * Band => t.1 < length signed)
            (scheduled env k (read_tasks env signed grid))) as Hlt.
  { apply Forall_forall. intros t Ht. rewrite Hp in Ht.
    by apply elem_of_read_tasks in Ht. }
  destruct (attempts_log signed _ Hlt) as (Hreading & Hread & Hcount & Hmem).
  split; [by rewrite Hp|]. split; [done|]. split; [done|]. split.
  - by rewrite Hcount, Hp, read_tasks_length.
  - intros it b [i Hi]%list_elem_of_lookup. apply (Hmem i); [done|].
    rewrite Hp. apply elem_of_read_tasks. simpl. by eapply lookup_lt_Some.
Qed.

Lemma workflow_body_inv (items : list Item) (gdf : list Feature)
    (r : option Result) (log : list event) :
  workflow_body env items gdf = (Done r, log) ->
  exists signed grid mask window data,
    for_each (sign_item env) items
    = (Done signed, (fun it => Sign (item_id it)) <$> items) /\
    stack_grid env signed gdf = Ok grid /\
    clip_mask env gdf = Ok mask /\
    data_window mask grid = Ok window /\
    data = max_time (index_grid
                       (isel_window (clip (stack_values env signed grid) mask)
                                    window)) /\
    log = ((fun it => Sign (item_id it)) <$> items)
          ++ (scheduled env 0 (read_tasks env signed grid) ≫= attempt signed)
          ++ (scheduled env 1 (read_tasks env signed grid) ≫= attempt signed)
    /\
    r = match statistics data with
        | None => None
        | Some stats =>
            Some {| ndvi_data := data; ndvi_img := coarsen_mean data;
                    result_statistics := stats |}
        end.
Proof.
  unfold workflow_body, compute. intros H.
  apply bindM_Done in H as (items' & l1 & l2 & Hsign & H & ->).
  apply bindM_Done in H as (grid & l3 & l4 & Hgrid & H & ->).
  apply bindM_Done in H as (mask & l5 & l6 & Hmask & H & ->).
  apply bindM_Done in H as (window & l7 & l8 & Hwin & H & ->).
  apply bindM_Done in H as (img & l9 & l10 & Himg & H & ->).
  apply bindM_Done in H as (data & l11 & l12 & Hdata & H & ->).
  apply bindM_Done in Himg as (g & l13 & l14 & Hg & [= <- <-] & ->).
  fold (lazy_composite env items' grid mask window 0) in Hg.
  fold (lazy_composite env items' grid mask window 1) in Hdata.
  apply lazy_composite_inv in Hg as [-> ->].
  apply lazy_composite_inv in Hdata as [-> ->].
  destruct (sign_loop_Done env _ _ _ Hsign) as [-> _].
  destruct (stack_grid env items' gdf) as [grid'|] eqn:Hsg;
    simpl in Hgrid; [|discriminate].
  destruct (clip_mask env gdf) as [mask'|] eqn:Hcm;
    simpl in Hmask; [|discriminate].
  injection Hgrid as <- <-. injection Hmask as <- <-.
  destruct (data_window mask' grid') as [window'|] eqn:Hdw;
    simpl in Hwin; [|discriminate].
  injection Hwin as <- <-.
  eexists items', grid', mask', window', _.
  split; [done|]. split; [done|]. split; [done|]. split; [done|].
  split; [reflexivity|].
  destruct (statistics _); injection H as <- <-;
    rewrite !app_nil_r; simpl; done.
Qed.
End WorkflowFacts.

Lemma make_rows_KeyError (hash : string -> Z) (items : list Item) :
  (exists it, it ∈ items /\ cloud_cover it = None) ->
  filter_best_items hash items = Raise (KeyError "eo:cloud_cover").
Proof.
  intros (it & Hit & Hnone). unfold filter_best_items.
  rewrite (traverse_Raise (make_row hash) items (KeyError "eo:cloud_cover")).
  - reflexivity.
  - intros x _. unfold make_row. destruct (cloud_cover x); eauto.
  - exists it. split; [done|]. unfold make_row. now rewrite Hnone.
Qed.

Section MainFacts.
Variable env : Env.

Lemma fetch_items_Ok (gdf : list Feature) (items : list Item) :
  search env gdf = Ok items ->
  fetch_items env gdf
  = (Done items,
     Search :: if decide (0 < length items)
               then [Show (WriteAvailable (length items))] else []).
Proof.
  intros H. unfold fetch_items. rewrite H. simpl.
  destruct (decide (0 < length items)); reflexivity.
Qed.

Lemma fetch_items_not_Stopped (gdf : list Feature) :
  (fetch_items env gdf).1 <> Stopped.
Proof.
  unfold fetch_items.
  repeat first [ apply bindM_not_Stopped | apply lift_not_Stopped | intros ? ];
    try done.
  destruct (decide _); done.
Qed.

Lemma after_validation_announced (gdf : list Feature) :
  announced (after_validation env gdf).
Proof.
  unfold after_validation.
  apply announced_bind;
    [apply not_Stopped_announced, fetch_items_not_Stopped|].
  intros items. apply announced_bind.
  { destruct (decide _); [|by apply not_Stopped_announced].
    intros _. exists ErrorNoScenes. split; [|done]. right; right; by left. }
  intros _. apply announced_bind;
    [apply not_Stopped_announced, lift_not_Stopped|].
  intros best. apply announced_bind; [by apply not_Stopped_announced|].
  intros _. apply announced_bind;
    [apply not_Stopped_announced, compute_ndvi_workflow_not_Stopped|].
  intros [r|].
  - by apply not_Stopped_announced.
  - intros _. exists ErrorNoValid. split; [|done]. do 3 right. done.
Qed.

Lemma after_validation_plots (gdf : list Feature) :
  plots (after_validation env gdf).
Proof.
  unfold after_validation.
  apply plots_bind. intros items. apply plots_bind. intros _.
  apply plots_bind. intros best. apply plots_bind. intros _.
  apply plots_bind. intros [r|] u Hu; [reflexivity|discriminate].
Qed.

Lemma run_analysis_unfold uploaded all_drawings :
  run_analysis env uploaded all_drawings
  = try_except
      (gdf <~ load_aoi uploaded all_drawings ;;
       show_aoi gdf ;;;
       area_km2 <~ area_validation gdf ;;
       after_validation env gdf)
      (fun e => emit (Show (ErrorAnalysis e))).
Proof. reflexivity. Qed.
End MainFacts.

Section ValidatedFacts.
Variable env : Env.

Lemma show_aoi_cons (f : Feature) (rest : list Feature) :
  show_aoi (f :: rest)
  = (Done tt, [Show (ShowGeometry (wkt f)); Show ShowBounds]).
Proof. reflexivity. Qed.

Lemma area_validation_within (f : Feature) (rest : list Feature) :
  PrimFloat.ltb MAX_AREA_KM2 (area_6933 f / 1e6) = false ->
  area_validation (f :: rest)
  = (Done (area_6933 f / 1e6)%float, [Show (SuccessAOI (area_6933 f / 1e6))]).
Proof. intros H. unfold area_validation. cbv zeta. rewrite H. reflexivity. Qed.

Lemma area_validation_beyond (f : Feature) (rest : list Feature) :
  PrimFloat.ltb MAX_AREA_KM2 (area_6933 f / 1e6) = true ->
  area_validation (f :: rest)
  = (Stopped, [Show (ErrorAreaExceeded (area_6933 f / 1e6))]).
Proof. intros H. unfold area_validation. cbv zeta. rewrite H. reflexivity. Qed.

(** A run whose AOI has loaded and passed the validation. *)
Lemma run_analysis_validated uploaded all_drawings f rest l0 :
  load_aoi uploaded all_drawings = (Done (f :: rest), l0) ->
  PrimFloat.ltb MAX_AREA_KM2 (area_6933 f / 1e6) = false ->
  run_analysis env uploaded all_drawings
  = try_except
      ((after_validation env (f :: rest)).1,
       l0 ++ [Show (ShowGeometry (wkt f)); Show ShowBounds]
          ++ [Show (SuccessAOI (area_6933 f / 1e6))]
          ++ (after_validation env (f :: rest)).2)
      (fun e => emit (Show (ErrorAnalysis e))).
Proof.
  intros Hload Hok. rewrite run_analysis_unfold, Hload, bindM_Done_l.
  rewrite show_aoi_cons, bindM_Done_l, (area_validation_within _ _ Hok).
  rewrite bindM_Done_l. reflexivity.
Qed.
End ValidatedFacts.

(** *** The composite as a maximum *)

Lemma leb_antisym (x y : float) :
  is_nan x = false -> is_nan y = false ->
  PrimFloat.leb x y = true -> PrimFloat.leb y x = true ->
  PrimFloat.eqb x y = true.
Proof.
  intros [a Ha]%F64Facts.not_nan_key [b Hb]%F64Facts.not_nan_key.
  rewrite (F64Facts.leb_key _ _ _ _ Ha Hb), (F64Facts.leb_key _ _ _ _ Hb Ha).
  intros Hab Hba. rewrite FloatAxioms.eqb_spec. unfold SFeqb.
  destruct (F64Facts.SFcompare_rank _ _ _ _ Ha Hb) as (c & -> & _ & HEq & _).
  assert (a = b) as Heq.
  { destruct Hab as [Hlt|?]; [|done]. destruct Hba as [Hlt'|?]; [|done].
    exfalso. eapply F64Facts.lex_lt_irrefl, F64Facts.lex_lt_trans; eauto. }
  apply HEq in Heq. by rewrite Heq.
Qed.

Lemma nanmax_Permutation (l l' : list float) :
  l ≡ₚ l' ->
  (is_nan (nanmax l) = true /\ is_nan (nanmax l') = true) \/
  (is_nan (nanmax l) = false /\ is_nan (nanmax l') = false /\
   PrimFloat.eqb (nanmax l) (nanmax l') = true).
Proof.
  intros Hp.
  assert (forall v, v ∈ l <-> v ∈ l') as Hmem by (intros v; by rewrite Hp).
  clear Hp.
  destruct (nanmax_cases l) as [[Hn Hall]|(Hn & Hin & Hmax)],
           (nanmax_cases l') as [[Hn' Hall']|(Hn' & Hin' & Hmax')].
  - by left.
  - exfalso. apply Hmem in Hin'. rewrite Forall_forall in Hall.
    rewrite (Hall _ Hin') in Hn'. done.
  - exfalso. apply Hmem in Hin. rewrite Forall_forall in Hall'.
    rewrite (Hall' _ Hin) in Hn. done.
  - right. split; [done|]. split; [done|]. apply leb_antisym; try done.
    + apply Hmax'; [by apply Hmem|done].
    + apply Hmax; [by apply Hmem|done].
Qed.

(** *** What a log holds *)

Lemma log_bind {A B} (P : event -> Prop) (m : M A) (f : A -> M B) :
  Forall P m.2 -> (forall a, m.1 = Done a -> Forall P (f a).2) ->
  Forall P (bindM m f).2.
Proof.
  destruct m as [[a|e|] l]; simpl; intros Hm Hf; try done.
  specialize (Hf a eq_refl). destruct (f a) as [r l']. simpl in *.
  by apply Forall_app.
Qed.

Lemma log_try_except {A} (P : event -> Prop) (body : M A)
    (handler : exn -> M A) :
  Forall P body.2 -> (forall e, Forall P (handler e).2) ->
  Forall P (try_except body handler).2.
Proof.
  destruct body as [[a|e|] l]; simpl; intros Hm Hf; try done.
  specialize (Hf e). destruct (handler e) as [r l']. simpl in *.
  by apply Forall_app.
Qed.

Lemma log_for_each {A B} (P : event -> Prop) (f : A -> M B) (l : list A) :
  (forall x, x ∈ l -> Forall P (f x).2) -> Forall P (for_each f l).2.
Proof.
  induction l as [|x l IH]; intros Hf; [constructor|].
  rewrite for_each_cons. apply log_bind; [apply Hf; left|].
  intros y _. apply log_bind.
  - apply IH. intros z Hz. apply Hf. by right.
  - intros ys _. constructor.
Qed.

Lemma lift_log {A} (P : event -> Prop) (r : res A) : Forall P (lift r).2.
Proof. destruct r; constructor. Qed.

Lemma lift_Done {A} (r : res A) (a : A) : (lift r).1 = Done a -> r = Ok a.
Proof. destruct r; simpl; congruence. Qed.

Section SigningFacts.
Variable env : Env.

Lemma fetch_items_Done (gdf : list Feature) (items : list Item) :
  (fetch_items env gdf).1 = Done items -> search env gdf = Ok items.
Proof.
  unfold fetch_items. destruct (search env gdf) as [found|e]; simpl.
  - destruct (decide (0 < length found)); simpl; congruence.
  - discriminate.
Qed.

Lemma fetch_items_log (gdf : list Feature) :
  Forall (fun ev => forall id, ev <> Sign id) (fetch_items env gdf).2.
Proof.
  unfold fetch_items. destruct (search env gdf) as [found|e]; simpl.
  - destruct (decide (0 < length found)); simpl; repeat constructor; done.
  - repeat constructor; done.
Qed.

Lemma compute_ndvi_workflow_signs (items : list Item) (gdf : list Feature) :
  Forall (signs_within items) (compute_ndvi_workflow env items gdf).2.
Proof.
  assert (forall ev, (forall id, ev <> Sign id) -> signs_within items ev)
    as Hother.
  { intros ev Hev id ->. by destruct (Hev id). }
  assert (forall signed tasks, Forall (signs_within items)
            (run_reads env signed tasks).2) as Hread.
  { intros signed tasks.
    assert (forall ts : list (nat * Band),
              Forall (signs_within items) (ts ≫= attempt signed)) as Hts.
    { induction ts as [|t ts IH]; [constructor|]. rewrite bind_cons.
      apply Forall_app. split; [|done]. unfold attempt.
      destruct (signed !! t.1); repeat constructor. by apply Hother. }
    induction tasks as [|t tasks IH]; simpl; [constructor|].
    assert (Forall (signs_within items) (attempt signed t)) as Ht.
    { specialize (Hts [t]). by rewrite bind_cons, app_nil_r in Hts. }
    destruct (read_task env signed t).
    - destruct (run_reads env signed tasks) as [r l]. simpl in *.
      by apply Forall_app.
    - simpl. apply Forall_app. split; [done|apply Hts]. }
  unfold compute_ndvi_workflow. apply log_try_except.
  2:{ intros e. repeat constructor. apply Hother. done. }
  unfold workflow_body, compute, stack_of.
  apply log_bind.
  { apply log_for_each. intros it Hit. unfold sign_item.
    destruct (sign env it); simpl; repeat constructor;
      intros id [= <-]; eauto. }
  intros signed _. apply log_bind; [apply lift_log|].
  intros grid _. apply log_bind; [apply lift_log|].
  intros mask _. apply log_bind; [apply lift_log|].
  intros window _. apply log_bind.
  { repeat (apply log_bind; [|intros ? _; try constructor]). apply Hread. }
  intros img _. apply log_bind.
  { repeat (apply log_bind; [|intros ? _; try constructor]). apply Hread. }
  intros data _. destruct (statistics data); constructor.
Qed.
End SigningFacts.

(** * Part IV: the properties *)

(** ** The deduplication *)

Section DeduplicationTheorems.
Variable hash : string -> Z.

(** C2, as the program has it: for a non-empty input whose identifiers
    are pairwise distinct and whose items all carry a (non-NaN)
    cloud-cover value, [filter_best_items] returns a subsequence of its
    input (relative order kept, nothing new) that holds, for every
    footprint key of the input, exactly one item: the item of least cloud
    cover of that key, and among several of least cloud cover the one
    that comes first in the input. *)
Theorem filter_best_items_first_min (items : list Item) :
  items <> [] ->
  NoDup (item_id <$> items) ->
  Forall cloud_known items ->
  exists out,
    filter_best_items hash items = Ok out /\
    out `sublist_of` items /\
    forall it, it ∈ items ->
      exists i b,
        first_min hash items i b /\
        footprint_key hash b = footprint_key hash it /\
        filter (fun x => footprint_key hash x = footprint_key hash it) out
          = [b].
Proof.
  intros Hne Hids Hcloud.
  destruct (make_rows hash items Hcloud) as (rows & Hrows & HF & Hnan).
  destruct (groupby_idxmin_spec rows Hnan) as (labels & Hl & Hlab & Hex).
  destruct (loc_spec rows labels) as (best & Hb & HFb).
  { intros p [r [Hr _]]%Hlab. eauto. }
  unfold filter_best_items. rewrite Hrows. simpl.
  rewrite (GeoDataFrame_Ok hash items rows HF Hne). simpl. rewrite Hl. simpl.
  rewrite Hb. simpl.
  eexists. split; [reflexivity|]. split; [apply sublist_filter|].
  (* rows and items correspond position by position *)
  assert (forall j c, items !! j = Some c ->
            exists rc, rows !! j = Some rc /\ make_row hash c = Ok rc)
    as Hir.
  { intros j c Hj. eapply Forall2_lookup_l in HF as (rc & ? & ?); eauto. }
  assert (forall j rc, rows !! j = Some rc ->
            exists c, items !! j = Some c /\ make_row hash c = Ok rc)
    as Hri.
  { intros j rc Hj. eapply Forall2_lookup_r in HF as (c & ? & ?); eauto. }
  (* a first-minimum row is a first-minimum item *)
  assert (forall p r b, row_first_min rows p r -> items !! p = Some b ->
            first_min hash items p b) as Hfm.
  { intros p r b [Hp Hmin] Hpb. split; [done|].
    intros j c cb cc Hj Hk Hcb Hcc.
    destruct (Hir _ _ Hj) as (rc & Hrc & Hmc).
    destruct (Hir _ _ Hpb) as (rb & Hrb & Hmb).
    apply make_row_Ok in Hmc as (_ & Hc1 & Hc2).
    apply make_row_Ok in Hmb as (_ & Hb1 & Hb2).
    simplify_eq. apply Hmin; [done|]. congruence. }
  intros it Hit. apply list_elem_of_lookup in Hit as [q Hq].
  destruct (Hir _ _ Hq) as (rq & Hrq & Hmq).
  destruct (Hex _ _ Hrq) as (p & r0 & Hmin & Hh).
  destruct (Hri _ _ (proj1 Hmin)) as (b & Hpb & Hmb).
  pose proof (make_row_Ok _ _ _ Hmq) as (_ & _ & Hkq).
  pose proof (make_row_Ok _ _ _ Hmb) as (Hidb & _ & Hkb).
  exists p, b. split; [eauto|]. split; [congruence|].
  rewrite list_filter_filter.
  apply (filter_unique _ _ p); [done| |].
  - split; [congruence|].
    apply list_elem_of_fmap. exists r0. split; [done|].
    assert (p ∈ labels) as Hpl by (apply Hlab; eauto).
    apply list_elem_of_lookup in Hpl as [n Hn].
    destruct (Forall2_lookup_l _ _ _ _ _ HFb Hn) as (r & Hr & Hpr).
    rewrite (proj1 Hmin) in Hpr. simplify_eq.
    eapply list_elem_of_lookup_2; eauto.
  - intros j c Hj [Hkc Hin].
    apply list_elem_of_fmap in Hin as (r & Hidr & Hr).
    apply list_elem_of_lookup in Hr as [n Hn].
    destruct (Forall2_lookup_r _ _ _ _ _ HFb Hn) as (p' & Hp' & Hpr).
    assert (exists r', row_first_min rows p' r') as [r' Hmin'].
    { apply Hlab. eapply list_elem_of_lookup_2; eauto. }
    assert (r' = r) as -> by (destruct Hmin'; congruence).
    destruct (Hri _ _ Hpr) as (c' & Hc' & Hmc').
    pose proof (make_row_Ok _ _ _ Hmc') as (Hidc' & _ & Hkc').
    assert (p' = j) as ->.
    { eapply NoDup_lookup; [apply Hids| |].
      - rewrite list_lookup_fmap, Hc'. reflexivity.
      - rewrite list_lookup_fmap, Hj. simpl. congruence. }
    eapply row_first_min_unique; eauto. congruence.
Qed.

(** C3, as the program has it: an item without a cloud-cover property
    makes [filter_best_items] raise [KeyError] for that property; no
    default value stands in for it and no item is selected. *)
Theorem filter_best_items_missing_cloud (items : list Item) :
  (exists it, it ∈ items /\ cloud_cover it = None) ->
  filter_best_items hash items = Raise (KeyError "eo:cloud_cover").
Proof.
  intros (it & Hit & Hnone). unfold filter_best_items.
  rewrite (traverse_Raise (make_row hash) items (KeyError "eo:cloud_cover")).
  - reflexivity.
  - intros x _. unfold make_row. destruct (cloud_cover x); eauto.
  - exists it. split; [done|]. unfold make_row. now rewrite Hnone.
Qed.

(** Items of one footprint text share their key, whatever the seed. *)
Lemma footprint_key_wkb (a b : Item) :
  wkb_hex a = wkb_hex b -> footprint_key hash a = footprint_key hash b.
Proof. unfold footprint_key. now intros ->. Qed.
End DeduplicationTheorems.

Section DeduplicationChecks.
Import Scenes.

Example dedup_sample :
  filter_best_items sample_hash [tile_b; tile_a; tile_c] = Ok [tile_a; tile_c].
Proof. vm_compute. reflexivity. Qed.

(** The selection is by identifier: items that share the identifier of a
    selected item are kept with it. *)
Example repeated_id_keeps_both :
  filter_best_items sample_hash [tile_a; tile_a_again]
  = Ok [tile_a; tile_a_again].
Proof. vm_compute. reflexivity. Qed.

Lemma filter_best_items_first_min_witness :
  exists out,
    filter_best_items sample_hash [tile_b; tile_a; tile_c] = Ok out /\
    out `sublist_of` [tile_b; tile_a; tile_c] /\
    forall it, it ∈ [tile_b; tile_a; tile_c] ->
      exists i b,
        first_min sample_hash [tile_b; tile_a; tile_c] i b /\
        footprint_key sample_hash b = footprint_key sample_hash it /\
        filter (fun x => footprint_key sample_hash x
                         = footprint_key sample_hash it) out = [b].
Proof.
  apply (filter_best_items_first_min sample_hash [tile_b; tile_a; tile_c]).
  - discriminate.
  - apply (bool_decide_unpack _). vm_compute. reflexivity.
  - repeat constructor; eexists; split; reflexivity.
Defined.

(** C2 as stated fails on a tie: the claim selects [tie_early] (earlier
    acquisition, lower identifier); the program keeps [tie_late], the first
    of the two in the input. *)
Lemma tie_keeps_first_in_input :
  wkb_hex tie_early = wkb_hex tie_late /\
  cloud_cover tie_early = cloud_cover tie_late /\
  (datetime tie_early < datetime tie_late)%Z /\
  String.ltb (item_id tie_early) (item_id tie_late) = true /\
  forall hash, filter_best_items hash [tie_late; tie_early] = Ok [tie_late].
Proof.
  repeat split; try reflexivity.
  intros hash. unfold filter_best_items. simpl.
  unfold groupby_idxmin, group_keys, group. simpl.
  generalize (hash "0103000000"). intros z.
  destruct (decide_rel elem_of z [z]) as [_|Hn]; [|exfalso; apply Hn; left].
  simpl. rewrite !filter_cons_True by done. simpl.
  vm_compute. reflexivity.
Qed.

Lemma filter_best_items_missing_cloud_witness :
  filter_best_items sample_hash [tile_a; no_cloud]
  = Raise (KeyError "eo:cloud_cover").
Proof.
  apply (filter_best_items_missing_cloud sample_hash [tile_a; no_cloud]).
  exists no_cloud. split; [|reflexivity]. right. left.
Defined.

(** C3 as stated fails: the item without cloud cover is not ranked as
    100 percent, the call raises. *)
Lemma missing_cloud_raises :
  cloud_cover no_cloud = None /\
  forall hash,
    filter_best_items hash [tile_a; no_cloud]
    = Raise (KeyError "eo:cloud_cover").
Proof. split; [reflexivity|]. intros hash. reflexivity. Qed.
End DeduplicationChecks.

(** ** The index, the composite and the statistics *)

#[local] Set Warnings "-inexact-float".

(** C6: the index grid has the time steps, the rows and the columns of
    the clipped stack, and every cell of it, at every time step, is
    [(nir - red) / (nir + red)] of the two band values of that cell, with
    the division of binary64 and no guard for a zero denominator: 100 and
    50 give the binary64 number nearest to 1/3, and two zero bands give
    NaN (not zero), on every cell. *)
Theorem index_grid_every_pixel (clipped : Stack) (t y x : nat) :
  nt (index_grid clipped) = stack_nt clipped
  /\ cube_ny (index_grid clipped) = stack_ny clipped
  /\ cube_nx (index_grid clipped) = stack_nx clipped
  /\ voxel (index_grid clipped) t y x
     = ((sample clipped t B08 y x - sample clipped t B04 y x)
        / (sample clipped t B08 y x + sample clipped t B04 y x))%float
  /\ (forall n h w,
        voxel (index_grid (const_stack n h w 100 50)) t y x = (1 / 3)%float)
  /\ (forall n h w,
        is_nan (voxel (index_grid (const_stack n h w 0 0)) t y x) = true
        /\ PrimFloat.eqb (voxel (index_grid (const_stack n h w 0 0)) t y x) 0
           = false).
Proof.
  do 4 (split; [reflexivity|]). split; intros n h w; [reflexivity|].
  split; reflexivity.
Qed.

(** C7: the composite has the rows and the columns of the index grid, and
    its value at a pixel is the NaN-skipping maximum of the time series of
    that pixel. When some time step holds a number, the composite is a
    number of the series and no number of the series exceeds it; when
    every time step is NaN, and only then, the composite is NaN. The
    series [NaN, 0.2, 0.5, NaN] gives 0.5. *)
Theorem max_time_skips_nan (c : Cube) (y x : nat) :
  ny (max_time c) = cube_ny c
  /\ nx (max_time c) = cube_nx c
  /\ ((exists t, t < nt c /\ is_nan (voxel c t y x) = false) ->
     is_nan (cell (max_time c) y x) = false /\
     (exists t, t < nt c /\ cell (max_time c) y x = voxel c t y x) /\
     (forall t, t < nt c -> is_nan (voxel c t y x) = false ->
        PrimFloat.leb (voxel c t y x) (cell (max_time c) y x) = true))
  /\ ((forall t, t < nt c -> is_nan (voxel c t y x) = true) <->
      is_nan (cell (max_time c) y x) = true)
  /\ cell (max_time (cube_of_series [nan; 0.2; 0.5; nan]%float)) 0 0
     = 0.5%float
  /\ is_nan (cell (max_time (cube_of_series [nan; nan; nan])) 0 0) = true.
Proof.
  assert (forall t, t < nt c -> voxel c t y x ∈ series c y x) as Hin.
  { intros t Ht. apply elem_of_series. eauto. }
  split; [reflexivity|]. split; [reflexivity|].
  simpl. destruct (nanmax_cases (series c y x)) as [[Hm Hall]|(Hm & Hmem & Hmax)].
  - rewrite Forall_forall in Hall. split; [|split; [|split; reflexivity]].
    + intros (t & Ht & Hv). rewrite (Hall _ (Hin t Ht)) in Hv. done.
    + split; [done|]. intros _ t Ht. auto.
  - split; [|split; [|split; reflexivity]].
    + intros _. split; [done|]. split.
      * apply elem_of_series in Hmem as (t & Ht & Ht'). eauto.
      * intros t Ht Hv. auto.
    + split; [|congruence]. intros Hall.
      apply elem_of_series in Hmem as (t & Ht & Ht').
      rewrite Ht', (Hall t Ht) in Hm. done.
Qed.


(** ** The run *)

Section RunTheorems.
Import Scenes Runs.
Variable env : Env.



(** C9: the validation compares the area of the first feature, and of
    no other, with the limit. Whatever features follow, it ends as it
    does on the first feature alone: it shows the error and stops when the
    first feature is above the limit, and succeeds when it is not. Two
    fields of 300 and 389 square kilometres, 689 in all, pass, and the run
    goes on to the catalog search; a square of 900 square kilometres
    followed by one of 100 is rejected. *)
Theorem area_validation_first_feature (f : Feature) (rest : list Feature) :
  area_validation (f :: rest) = area_validation [f]
  /\ (PrimFloat.ltb MAX_AREA_KM2 (area_6933 f / 1e6) = true ->
      area_validation (f :: rest)
      = (Stopped, [Show (ErrorAreaExceeded (area_6933 f / 1e6))]))
  /\ (PrimFloat.ltb MAX_AREA_KM2 (area_6933 f / 1e6) = false ->
      area_validation (f :: rest)
      = (Done (area_6933 f / 1e6)%float,
         [Show (SuccessAOI (area_6933 f / 1e6))]))
  /\ PrimFloat.ltb MAX_AREA_KM2 (total_area_km2 [field_300; field_389]) = true
  /\ area_validation [field_300; field_389]
     = (Done 300%float, [Show (SuccessAOI 300)])
  /\ area_validation [square_30km; square_10km]
     = (Stopped, [Show (ErrorAreaExceeded 900)])
  /\ Search ∈ (run_analysis green (Some (Ok [field_300; field_389])) []).2.
Proof.
  split; [reflexivity|]. split; [apply area_validation_beyond|].
  split; [apply area_validation_within|].
  split; [reflexivity|]. split; [reflexivity|]. split; [reflexivity|].
  vm_compute. do 4 right. left.
Qed.

(** C10: [compute_ndvi_workflow] always returns: its outcome is never an
    exception (and never a stop). When a stage of its body raises, the
    returned value is [None]; when the body returns, its value is returned
    as it is, [None] for a composite that is NaN everywhere. A run whose
    asset reads fail and a run whose composite is NaN everywhere return
    the same [None], and the caller ends both with the same message. *)
Theorem compute_ndvi_workflow_never_raises (items : list Item)
    (gdf : list Feature) :
  (exists r, (compute_ndvi_workflow env items gdf).1 = Done r)
  /\ (forall e, (workflow_body env items gdf).1 = Raised e ->
        (compute_ndvi_workflow env items gdf).1 = Done None /\
        last (compute_ndvi_workflow env items gdf).2
        = Some (Show (ErrorNDVI e)))
  /\ (forall r, (workflow_body env items gdf).1 = Done r ->
        compute_ndvi_workflow env items gdf = workflow_body env items gdf)
  /\ ((workflow_body offline [tile_a] [square_10km]).1
        = Raised (External "read timed out")
      /\ (workflow_body blank [tile_a] [square_10km]).1 = Done None
      /\ (compute_ndvi_workflow offline [tile_a] [square_10km]).1 = Done None
      /\ (compute_ndvi_workflow blank [tile_a] [square_10km]).1 = Done None)
  /\ ((run_analysis offline (Some (Ok [square_10km])) []).1 = Stopped
      /\ last (run_analysis offline (Some (Ok [square_10km])) []).2
         = Some (Show ErrorNoValid)
      /\ (run_analysis blank (Some (Ok [square_10km])) []).1 = Stopped
      /\ last (run_analysis blank (Some (Ok [square_10km])) []).2
         = Some (Show ErrorNoValid)).
Proof.
  pose proof (workflow_body_not_Stopped env items gdf) as Hns.
  unfold compute_ndvi_workflow, try_except.
  destruct (workflow_body env items gdf) as [[r|e|] l] eqn:Hbody;
    simpl in *; [| |done].
  - split; [eauto|]. split; [discriminate|]. split; [done|].
    split; repeat split; vm_compute; reflexivity.
  - split; [eauto|]. split.
    + intros e' [= <-]. split; [done|]. rewrite last_app. reflexivity.
    + split; [discriminate|]. split; repeat split; vm_compute; reflexivity.
Qed.
End RunTheorems.

Section RunChecks.
Import Scenes Runs MoreSamples.



End RunChecks.

(** * Part V: further properties *)

(** ** The deduplication *)

Section DeduplicationExtras.
Variable hash : string -> Z.

(** X1: on a non-empty input whose items all carry a (non-NaN) cloud
    cover, [filter_best_items] returns, whether or not identifiers repeat:
    its result is a non-empty subsequence of the input that holds, for
    every footprint key of the input, the first item of least cloud cover
    of that key. *)
Theorem filter_best_items_keeps_best (items : list Item) :
  items <> [] ->
  Forall cloud_known items ->
  exists out,
    filter_best_items hash items = Ok out /\
    out `sublist_of` items /\
    (forall it, it ∈ items ->
       exists p b, first_min hash items p b /\
                   footprint_key hash b = footprint_key hash it /\
                   b ∈ out) /\
    out <> [].
Proof.
  intros Hne Hc. destruct (filter_best_items_ids hash items Hne Hc)
    as (ids & Hout & Hids & Hex).
  eexists. split; [exact Hout|]. split; [apply sublist_filter|].
  assert (forall it, it ∈ items ->
            exists p b, first_min hash items p b /\
                        footprint_key hash b = footprint_key hash it /\
                        b ∈ filter (fun it => item_id it ∈ ids) items) as H.
  { intros it Hit. destruct (Hex it Hit) as (p & b & Hmin & Hk).
    exists p, b. split; [done|]. split; [done|].
    apply list_elem_of_filter. split.
    - apply Hids. eauto.
    - eapply list_elem_of_lookup_2. apply Hmin. }
  split; [exact H|].
  intros Hnil. destruct items as [|it items]; [done|].
  destruct (H it) as (p & b & _ & _ & Hb); [left|].
  rewrite Hnil in Hb. by apply elem_of_nil in Hb.
Qed.

(** X2: the result does not depend on the seed of the hash. Two hash
    functions that agree on which footprints of the input are equal (two
    collision-free ones, for instance) give the same result, exception or
    list. *)
Theorem filter_best_items_seed_independent (hash' : string -> Z)
    (items : list Item) :
  Forall cloud_known items ->
  (forall a b, a ∈ items -> b ∈ items ->
     (hash (wkb_hex a) = hash (wkb_hex b) <->
      hash' (wkb_hex a) = hash' (wkb_hex b))) ->
  filter_best_items hash items = filter_best_items hash' items.
Proof.
  intros Hc Hsame.
  destruct (decide (items = [])) as [->|Hne]; [reflexivity|].
  destruct (filter_best_items_ids hash items Hne Hc) as (ids & -> & Hids & _).
  destruct (filter_best_items_ids hash' items Hne Hc)
    as (ids' & -> & Hids' & _).
  f_equal. apply list_filter_iff. intros it.
  assert (forall p b, first_min hash items p b <-> first_min hash' items p b)
    as Hfm.
  { intros p b. unfold first_min, footprint_key. split.
    - intros [Hp Hmin]. split; [done|]. intros j c cb cc Hj Hk.
      apply Hmin; [done|]. apply Hsame; [| |done];
        eapply list_elem_of_lookup_2; eauto.
    - intros [Hp Hmin]. split; [done|]. intros j c cb cc Hj Hk.
      apply Hmin; [done|]. apply Hsame; [| |done];
        eapply list_elem_of_lookup_2; eauto. }
  rewrite Hids, Hids'. split; intros (p & b & Hmin & Hid);
    exists p, b; (split; [by apply Hfm|done]).
Qed.

(** X3: deduplicating twice changes nothing. On a non-empty input with
    distinct identifiers and known cloud cover, [filter_best_items]
    applied to its own result returns that result. *)
Theorem filter_best_items_idempotent (items : list Item) :
  items <> [] ->
  NoDup (item_id <$> items) ->
  Forall cloud_known items ->
  exists out,
    filter_best_items hash items = Ok out /\
    filter_best_items hash out = Ok out.
Proof.
  intros Hne Hnd Hc.
  destruct (filter_best_items_ids hash items Hne Hc)
    as (ids & Hout & Hids & Hex).
  pose proof (selected_first_min hash items ids Hnd Hids) as Hsel.
  set (out := filter (fun it => item_id it ∈ ids) items) in *.
  exists out. split; [done|].
  assert (Forall cloud_known out) as Hco.
  { rewrite Forall_forall in Hc. apply Forall_forall.
    intros it [_ Hit]%list_elem_of_filter. auto. }
  assert (out <> []) as Hneo.
  { destruct items as [|it0 items0]; [done|].
    destruct (Hex it0) as (p & b & Hmin & _); [left|].
    assert (b ∈ out) as Hb by (apply Hsel; eauto).
    intros Hnil. rewrite Hnil in Hb. by apply elem_of_nil in Hb. }
  destruct (filter_best_items_ids hash out Hneo Hco)
    as (ids' & -> & Hids' & Hex').
  f_equal. apply filter_all. intros it Hit.
  destruct (Hex' it Hit) as (p & b & Hmin & Hk).
  apply Hids'. exists p, b. split; [done|].
  assert (b ∈ out) as Hb by (eapply list_elem_of_lookup_2; apply Hmin).
  apply Hsel in Hb as [q Hq]. apply Hsel in Hit as [q' Hq'].
  destruct (first_min_unique hash items q b q' it Hc Hq Hq' Hk) as [_ ->].
  done.
Qed.

(** X4: when no two items of a non-empty input share a footprint key,
    nothing is dropped: the result is the input. *)
Theorem filter_best_items_distinct_footprints (items : list Item) :
  items <> [] ->
  NoDup (footprint_key hash <$> items) ->
  Forall cloud_known items ->
  filter_best_items hash items = Ok items.
Proof.
  intros Hne Hnd Hc.
  destruct (filter_best_items_ids hash items Hne Hc)
    as (ids & -> & Hids & _).
  f_equal. apply filter_all. intros it [q Hq]%list_elem_of_lookup.
  apply Hids. exists q, it. split; [|done]. split; [done|].
  intros j c cb cc Hj Hk Hcb Hcc.
  assert (j = q) as ->.
  { eapply NoDup_lookup; [apply Hnd| |].
    - rewrite list_lookup_fmap, Hj. reflexivity.
    - rewrite list_lookup_fmap, Hq. simpl. congruence. }
  assert (c = it) as -> by congruence. assert (cc = cb) as -> by congruence.
  split; [|lia]. apply F64Facts.leb_refl.
  rewrite Forall_forall in Hc.
  destruct (Hc it) as (c' & Hc' & Hn); [by eapply list_elem_of_lookup_2|].
  congruence.
Qed.

(** X5: on a non-empty input with distinct identifiers and known cloud
    cover, the selected items have pairwise distinct footprint keys, and
    there are as many of them as there are distinct footprint keys in the
    input. *)
Theorem filter_best_items_count (items : list Item) :
  items <> [] ->
  NoDup (item_id <$> items) ->
  Forall cloud_known items ->
  exists out,
    filter_best_items hash items = Ok out /\
    NoDup (footprint_key hash <$> out) /\
    length out = length (remove_dups (footprint_key hash <$> items)).
Proof.
  intros Hne Hnd Hc.
  destruct (filter_best_items_ids hash items Hne Hc)
    as (ids & Hout & Hids & Hex).
  pose proof (selected_first_min hash items ids Hnd Hids) as Hsel.
  set (out := filter (fun it => item_id it ∈ ids) items) in *.
  exists out. split; [done|].
  assert (NoDup (footprint_key hash <$> out)) as Hndk.
  { apply NoDup_fmap_2_strong.
    - intros x y [p Hp]%Hsel [q Hq]%Hsel Hk.
      by destruct (first_min_unique hash items p x q y Hc Hp Hq Hk).
    - apply (sublist_NoDup _ items); [|apply sublist_filter].
      eapply NoDup_fmap_1. exact Hnd. }
  split; [done|].
  rewrite <- (length_fmap (footprint_key hash) out).
  apply Permutation_length, NoDup_Permutation; [done|apply NoDup_remove_dups|].
  intros k. rewrite elem_of_remove_dups, !list_elem_of_fmap. split.
  - intros (x & -> & [_ Hx]%list_elem_of_filter). eauto.
  - intros (x & -> & Hx). destruct (Hex x Hx) as (p & b & Hmin & Hk).
    exists b. split; [done|]. apply Hsel. eauto.
Qed.
End DeduplicationExtras.

(** ** The arrays *)

(** X6: missing data stays missing. A cell that is NaN in the
    near-infrared or in the red band has a NaN index. *)
Theorem index_grid_nan_propagates (clipped : Stack) (t y x : nat) :
  is_nan (sample clipped t B08 y x) = true \/
  is_nan (sample clipped t B04 y x) = true ->
  is_nan (voxel (index_grid clipped) t y x) = true.
Proof.
  intros H. simpl. apply div_nan. left. by apply sub_nan.
Qed.


(** X8: statistics, when there are any, are numbers in order: neither
    the minimum nor the maximum is NaN, the minimum is at most the
    maximum, and the composite has a cell that is a number. *)
Theorem statistics_min_le_max (g : Grid) (s : Stats) :
  statistics g = Some s ->
  is_nan (stat_min s) = false /\ is_nan (stat_max s) = false /\
  PrimFloat.leb (stat_min s) (stat_max s) = true /\
  exists y x, y < ny g /\ x < nx g /\ is_nan (cell g y x) = false.
Proof.
  unfold statistics.
  destruct (forallb is_nan (cells g)) eqn:Hall; [done|].
  intros [= <-]. simpl.
  assert (~ Forall (fun v => is_nan v = true) (cells g)) as Hsome.
  { intros H%forallb_is_nan. congruence. }
  destruct (nanmin_cases (cells g)) as [[_ ?]|(Hn & Hin & Hmin)]; [done|].
  destruct (nanmax_cases (cells g)) as [[_ ?]|(Hx & Hix & Hmax)]; [done|].
  split; [done|]. split; [done|]. split; [auto|].
  apply elem_of_cells in Hin as (y & x & Hy & Hx' & Hc).
  exists y, x. split; [done|]. split; [done|]. congruence.
Qed.

(** X9: the coarsening pads, it does not trim. Every cell of the
    composite lies in a block of the preview, within the preview's shape,
    also when the composite's sides are no multiples of 4. *)
Theorem coarsen_mean_pads (g : Grid) (y x : nat) :
  y < ny g -> x < nx g ->
  y / 4 < ny (coarsen_mean g) /\ x / 4 < nx (coarsen_mean g) /\
  cell g y x ∈ block g (y / 4) (x / 4).
Proof.
  intros Hy Hx.
  change (ny (coarsen_mean g)) with ((ny g + 3) / 4).
  change (nx (coarsen_mean g)) with ((nx g + 3) / 4).
  pose proof (Nat.div_mod_eq y 4) as Hdy.
  pose proof (Nat.div_mod_eq x 4) as Hdx.
  assert (y mod 4 < 4) as Hmy by (apply Nat.mod_upper_bound; lia).
  assert (x mod 4 < 4) as Hmx by (apply Nat.mod_upper_bound; lia).
  pose proof (Nat.div_mod_eq (ny g + 3) 4) as Hdn.
  assert ((ny g + 3) mod 4 < 4) as Hmn by (apply Nat.mod_upper_bound; lia).
  pose proof (Nat.div_mod_eq (nx g + 3) 4) as Hdm.
  assert ((nx g + 3) mod 4 < 4) as Hmm by (apply Nat.mod_upper_bound; lia).
  split; [lia|]. split; [lia|].
  unfold block. apply list_elem_of_bind. exists (y mod 4). split.
  - apply list_elem_of_fmap. exists (x mod 4). split.
    + unfold padded. rewrite decide_True by lia. f_equal; lia.
    + apply elem_of_seq. lia.
  - apply elem_of_seq. lia.
Qed.

(** X10: a block of the composite with no number in it (its cells within
    the grid are all NaN) gives a NaN preview cell. *)
Theorem coarsen_mean_empty_block (g : Grid) (Y X : nat) :
  (forall i j, i < 4 -> j < 4 -> 4 * Y + i < ny g -> 4 * X + j < nx g ->
     is_nan (cell g (4 * Y + i) (4 * X + j)) = true) ->
  is_nan (cell (coarsen_mean g) Y X) = true.
Proof.
  intros Hall.
  assert (forall i j, i < 4 -> j < 4 ->
            is_nan (padded g (4 * Y + i) (4 * X + j)) = true) as Hpad.
  { intros i j Hi Hj. unfold padded.
    destruct (decide _) as [[? ?]|_]; [|reflexivity]. apply Hall; lia. }
  assert (Forall (fun v => is_nan v = true) (block g Y X)) as Hb.
  { apply Forall_forall. intros v Hv. unfold block in Hv.
    apply list_elem_of_bind in Hv as (i & Hv & Hi).
    apply list_elem_of_fmap in Hv as (j & -> & Hj).
    apply elem_of_seq in Hi, Hj. apply Hpad; lia. }
  assert (Forall (Forall (fun v => is_nan v = true)) (block_rows g Y X))
    as Hr.
  { apply Forall_forall. intros row Hrow. unfold block_rows in Hrow.
    apply list_elem_of_fmap in Hrow as (i & -> & Hi).
    apply Forall_forall. intros v Hv.
    apply list_elem_of_fmap in Hv as (j & -> & Hj).
    apply elem_of_seq in Hi, Hj. apply Hpad; lia. }
  change (cell (coarsen_mean g) Y X)
    with (rows_sum (block_rows g Y X)
          / of_nat (length (valid (block g Y X))))%float.
  rewrite (rows_sum_no_valid _ Hr), (valid_no_valid _ Hb). reflexivity.
Qed.

(** ** The workflow and the run *)

Section RunExtras.
Variable env : Env.

(** X11: in a run of the workflow in which no stage raises, every item
    is signed, in input order, before anything is read; all that follows
    in the log are reads of band assets of the signed items, and both
    bands of every signed item are read. *)
Theorem workflow_signs_before_reading (items : list Item)
    (gdf : list Feature) (r : option Result) (log : list event) :
  workflow_body env items gdf = (Done r, log) ->
  exists signed rest,
    Forall2 (fun it it' => sign env it = Ok it') items signed /\
    log = ((fun it => Sign (item_id it)) <$> items) ++ rest /\
    Forall (reading signed) rest /\
    (forall it b, it ∈ signed -> Read (item_id it) b ∈ rest).
Proof.
  intros H. apply workflow_body_inv in H
    as (signed & grid & mask & window & data & Hs & _ & _ & _ & _ & -> & _).
  apply sign_loop_Done in Hs as [_ HF].
  destruct (materialisation_log env signed grid 0)
    as (_ & Hall0 & _ & _ & Hevery).
  destruct (materialisation_log env signed grid 1) as (_ & Hall1 & _).
  eexists signed, _. split; [done|]. split; [reflexivity|]. split.
  - by apply Forall_app.
  - intros it b Hit. apply elem_of_app. left. auto.
Qed.

(** X12: when the signing of some item raises, the workflow reads no
    asset at all: it shows the signing error and returns [None]. *)
Theorem signing_failure_reads_nothing (items : list Item)
    (gdf : list Feature) :
  (exists it, it ∈ items /\ exists e, sign env it = Raise e) ->
  exists e log,
    compute_ndvi_workflow env items gdf = (Done None, log) /\
    (exists it, it ∈ items /\ sign env it = Raise e) /\
    reads log = 0 /\
    last log = Some (Show (ErrorNDVI e)).
Proof.
  intros H. destruct (sign_loop_Raised env items H) as (e & He & Hit).
  pose proof (sign_loop_reads env items) as Hr.
  unfold compute_ndvi_workflow, workflow_body.
  destruct (for_each (sign_item env) items) as [[ys|e'|] l];
    simpl in He; try discriminate.
  injection He as ->. rewrite bindM_Raised_l. simpl.
  exists e, (l ++ [Show (ErrorNDVI e)]).
  split; [done|]. split; [done|]. split.
  - rewrite reads_app. simpl in Hr. rewrite Hr. reflexivity.
  - rewrite last_app. reflexivity.
Qed.


(** X14: no exception leaves the run-button block. A run that stops has
    just shown one of the four messages (no AOI, area exceeded, no scenes,
    no valid data); a run that ends normally has just shown the plot or
    the error of the outer handler. *)
Theorem run_analysis_ends_with_message uploaded all_drawings :
  match (run_analysis env uploaded all_drawings).1 with
  | Done _ =>
      last (run_analysis env uploaded all_drawings).2 = Some (Show ShowPlot)
      \/ exists e, last (run_analysis env uploaded all_drawings).2
                   = Some (Show (ErrorAnalysis e))
  | Stopped =>
      exists u, stop_message u /\
        last (run_analysis env uploaded all_drawings).2 = Some (Show u)
  | Raised _ => False
  end.
Proof.
  rewrite run_analysis_unfold.
  match goal with |- context [try_except ?b _] => set (body := b) end.
  assert (announced body) as Hann.
  { apply announced_bind; [apply load_aoi_announced|]. intros gdf.
    apply announced_bind.
    { apply not_Stopped_announced. by destruct gdf. }
    intros _. apply announced_bind; [apply area_validation_announced|].
    intros _. apply after_validation_announced. }
  assert (plots body) as Hplot.
  { apply plots_bind. intros gdf. apply plots_bind. intros _.
    apply plots_bind. intros _. apply after_validation_plots. }
  unfold try_except. destruct body as [[[]|e|] l] eqn:Hbody; simpl.
  - left. by apply (Hplot tt).
  - right. exists e. rewrite last_app. reflexivity.
  - by apply Hann.
Qed.

(** X15: when the catalog has no scene for a valid AOI, the run shows
    "No scenes found." and stops right after the search: nothing is
    signed, nothing is read. *)
Theorem no_scenes_stops_before_signing uploaded all_drawings f rest l0 :
  load_aoi uploaded all_drawings = (Done (f :: rest), l0) ->
  PrimFloat.ltb MAX_AREA_KM2 (area_6933 f / 1e6) = false ->
  search env (f :: rest) = Ok [] ->
  run_analysis env uploaded all_drawings
  = (Stopped,
     l0 ++ [Show (ShowGeometry (wkt f)); Show ShowBounds;
            Show (SuccessAOI (area_6933 f / 1e6));
            Search; Show ErrorNoScenes]).
Proof.
  intros Hload Hok Hsearch.
  rewrite (run_analysis_validated env _ _ _ _ _ Hload Hok).
  unfold after_validation.
  rewrite (fetch_items_Ok env _ _ Hsearch), bindM_Done_l. cbv beta.
  simpl. reflexivity.
Qed.

(** X16: when a scene of the catalog lacks its cloud cover, the
    [KeyError] of the deduplication reaches the outer handler: the run
    shows it after the search and ends normally, without signing or
    reading. *)
Theorem missing_cloud_cover_is_reported uploaded all_drawings f rest l0
    (items : list Item) :
  load_aoi uploaded all_drawings = (Done (f :: rest), l0) ->
  PrimFloat.ltb MAX_AREA_KM2 (area_6933 f / 1e6) = false ->
  search env (f :: rest) = Ok items ->
  (exists it, it ∈ items /\ cloud_cover it = None) ->
  run_analysis env uploaded all_drawings
  = (Done tt,
     l0 ++ [Show (ShowGeometry (wkt f)); Show ShowBounds;
            Show (SuccessAOI (area_6933 f / 1e6));
            Search; Show (WriteAvailable (length items));
            Show (ErrorAnalysis (KeyError "eo:cloud_cover"))]).
Proof.
  intros Hload Hok Hsearch Hmiss.
  rewrite (run_analysis_validated env _ _ _ _ _ Hload Hok).
  unfold after_validation.
  rewrite (fetch_items_Ok env _ _ Hsearch), bindM_Done_l. cbv beta.
  rewrite (make_rows_KeyError (hash env) items Hmiss).
  destruct items as [|it0 items];
    [by destruct Hmiss as (? & ?%elem_of_nil & _)|].
  simpl. rewrite <- app_assoc. reflexivity.
Qed.

(** X17: whenever a run reaches the catalog or the imagery (a search, a
    signing or a read is in its log), an AOI with at least one feature has
    loaded and the area of its first feature is within the limit. *)
Theorem network_only_after_validation uploaded all_drawings (ev : event) :
  ev ∈ (run_analysis env uploaded all_drawings).2 ->
  network ev = true ->
  exists f rest,
    (load_aoi uploaded all_drawings).1 = Done (f :: rest) /\
    PrimFloat.ltb MAX_AREA_KM2 (area_6933 f / 1e6) = false.
Proof.
  intros Hev Hnet.
  pose proof (load_aoi_log uploaded all_drawings) as Hl0.
  assert (forall l : list event,
            Forall (fun ev => network ev = false) l -> ev ∈ l -> False) as Hno.
  { intros l Hl Hin. rewrite Forall_forall in Hl. specialize (Hl ev Hin).
    congruence. }
  destruct (load_aoi uploaded all_drawings) as [[gdf|e|] l0] eqn:Hload;
    simpl in Hl0.
  - destruct gdf as [|f rest].
    + exfalso. rewrite run_analysis_unfold, Hload in Hev. simpl in Hev.
      eapply Hno; [|exact Hev].
      repeat (apply Forall_app; split); try done; repeat constructor.
    + destruct (PrimFloat.ltb MAX_AREA_KM2 (area_6933 f / 1e6)) eqn:Hok;
        [|eauto].
      exfalso. rewrite run_analysis_unfold, Hload, bindM_Done_l in Hev.
      rewrite show_aoi_cons, bindM_Done_l in Hev.
      rewrite (area_validation_beyond _ _ Hok), bindM_Stopped_l in Hev.
      simpl in Hev. eapply Hno; [|exact Hev].
      apply Forall_app. split; [done|]. repeat constructor.
  - exfalso. rewrite run_analysis_unfold, Hload in Hev. simpl in Hev.
    eapply Hno; [|exact Hev].
    apply Forall_app. split; [done|]. repeat constructor.
  - exfalso. rewrite run_analysis_unfold, Hload in Hev. simpl in Hev.
    eapply Hno; [|exact Hev]. done.
Qed.
End RunExtras.

Section ExtraChecks.
Import Scenes Runs MoreSamples.
#[local] Set Warnings "-inexact-float".

Lemma filter_best_items_keeps_best_witness :
  exists out,
    filter_best_items sample_hash [tile_b; tile_a; tile_a_again] = Ok out /\
    out `sublist_of` [tile_b; tile_a; tile_a_again] /\
    (forall it, it ∈ [tile_b; tile_a; tile_a_again] ->
       exists p b, first_min sample_hash [tile_b; tile_a; tile_a_again] p b /\
                   footprint_key sample_hash b = footprint_key sample_hash it /\
                   b ∈ out) /\
    out <> [].
Proof.
  apply (filter_best_items_keeps_best sample_hash
           [tile_b; tile_a; tile_a_again]).
  - discriminate.
  - repeat constructor; eexists; split; reflexivity.
Defined.

Lemma filter_best_items_seed_independent_witness :
  filter_best_items sample_hash [tile_b; tile_a; tile_c]
  = filter_best_items other_hash [tile_b; tile_a; tile_c].
Proof.
  apply (filter_best_items_seed_independent sample_hash other_hash
           [tile_b; tile_a; tile_c]).
  - repeat constructor; eexists; split; reflexivity.
  - intros a b Ha Hb.
    repeat (apply elem_of_cons in Ha as [->|Ha]);
      try (by apply elem_of_nil in Ha);
      repeat (apply elem_of_cons in Hb as [->|Hb]);
      try (by apply elem_of_nil in Hb);
      vm_compute; split; congruence.
Defined.

Lemma filter_best_items_idempotent_witness :
  exists out,
    filter_best_items sample_hash [tile_b; tile_a; tile_c] = Ok out /\
    filter_best_items sample_hash out = Ok out.
Proof.
  apply (filter_best_items_idempotent sample_hash [tile_b; tile_a; tile_c]).
  - discriminate.
  - apply (bool_decide_unpack _). vm_compute. reflexivity.
  - repeat constructor; eexists; split; reflexivity.
Defined.

Lemma filter_best_items_distinct_footprints_witness :
  filter_best_items sample_hash [tile_a; tile_c] = Ok [tile_a; tile_c].
Proof.
  apply (filter_best_items_distinct_footprints sample_hash [tile_a; tile_c]).
  - discriminate.
  - apply (bool_decide_unpack _). vm_compute. reflexivity.
  - repeat constructor; eexists; split; reflexivity.
Defined.

Lemma filter_best_items_count_witness :
  exists out,
    filter_best_items sample_hash [tile_b; tile_a; tile_c] = Ok out /\
    NoDup (footprint_key sample_hash <$> out) /\
    length out
    = length (remove_dups (footprint_key sample_hash
                             <$> [tile_b; tile_a; tile_c])).
Proof.
  apply (filter_best_items_count sample_hash [tile_b; tile_a; tile_c]).
  - discriminate.
  - apply (bool_decide_unpack _). vm_compute. reflexivity.
  - repeat constructor; eexists; split; reflexivity.
Defined.

Lemma index_grid_nan_propagates_witness :
  is_nan (voxel (index_grid (const_stack 1 1 1 nan 100)) 0 0 0) = true.
Proof.
  apply (index_grid_nan_propagates (const_stack 1 1 1 nan 100) 0 0 0).
  left. reflexivity.
Defined.


Lemma statistics_min_le_max_witness :
  is_nan 0.1%float = false /\ is_nan 0.3%float = false /\
  PrimFloat.leb 0.1 0.3 = true /\
  exists y x, y < 1 /\ x < 4 /\
    is_nan (cell (grid_of_rows [[0.1; 0.2; 0.3; nan]]%float) y x) = false.
Proof.
  apply (statistics_min_le_max (grid_of_rows [[0.1; 0.2; 0.3; nan]]%float)
           {| stat_mean := 0.20000000000000004; stat_min := 0.1;
              stat_max := 0.3 |}).
  reflexivity.
Defined.

Lemma coarsen_mean_pads_witness :
  4 / 4 < ny (coarsen_mean (grid_of_rows (replicate 5 (replicate 6 0.4%float))))
  /\ 5 / 4 < nx (coarsen_mean (grid_of_rows (replicate 5 (replicate 6 0.4%float))))
  /\ cell (grid_of_rows (replicate 5 (replicate 6 0.4%float))) 4 5
     ∈ block (grid_of_rows (replicate 5 (replicate 6 0.4%float))) (4 / 4) (5 / 4).
Proof.
  apply (coarsen_mean_pads
           (grid_of_rows (replicate 5 (replicate 6 0.4%float))) 4 5).
  - simpl. lia.
  - simpl. lia.
Defined.

Lemma coarsen_mean_empty_block_witness :
  is_nan (cell (coarsen_mean (grid_of_rows [[nan; nan]; [nan; nan]])) 0 0)
  = true.
Proof.
  apply (coarsen_mean_empty_block (grid_of_rows [[nan; nan]; [nan; nan]]) 0 0).
  intros i j Hi Hj Hy Hx. simpl in Hy, Hx.
  destruct i as [|[|i]]; destruct j as [|[|j]]; try lia; reflexivity.
Defined.

Lemma workflow_signs_before_reading_witness :
  exists signed rest,
    Forall2 (fun it it' => sign green it = Ok it') [tile_a] signed /\
    (workflow_body green [tile_a] [square_10km]).2
    = ((fun it => Sign (item_id it)) <$> [tile_a]) ++ rest /\
    Forall (reading signed) rest /\
    (forall it b, it ∈ signed -> Read (item_id it) b ∈ rest).
Proof.
  apply (workflow_signs_before_reading green [tile_a] [square_10km]
           (Some green_result)).
  reflexivity.
Defined.

Lemma signing_failure_reads_nothing_witness :
  exists e log,
    compute_ndvi_workflow unsigned [tile_a] [square_10km] = (Done None, log) /\
    (exists it, it ∈ [tile_a] /\ sign unsigned it = Raise e) /\
    reads log = 0 /\
    last log = Some (Show (ErrorNDVI e)).
Proof.
  apply (signing_failure_reads_nothing unsigned [tile_a] [square_10km]).
  exists tile_a. split; [left|]. eexists. reflexivity.
Defined.


Lemma no_scenes_stops_before_signing_witness :
  run_analysis (with_catalog []) (Some (Ok [square_10km])) []
  = (Stopped,
     [ReadUpload] ++
     [Show (ShowGeometry (wkt square_10km)); Show ShowBounds;
      Show (SuccessAOI (area_6933 square_10km / 1e6));
      Search; Show ErrorNoScenes]).
Proof.
  apply (no_scenes_stops_before_signing (with_catalog [])
           (Some (Ok [square_10km])) [] square_10km [] [ReadUpload]);
    reflexivity.
Defined.

Lemma missing_cloud_cover_is_reported_witness :
  run_analysis (with_catalog [tile_a; no_cloud]) None [square_10km; field_300]
  = (Done tt,
     [] ++
     [Show (ShowGeometry (wkt square_10km)); Show ShowBounds;
      Show (SuccessAOI (area_6933 square_10km / 1e6));
      Search; Show (WriteAvailable (length [tile_a; no_cloud]));
      Show (ErrorAnalysis (KeyError "eo:cloud_cover"))]).
Proof.
  apply (missing_cloud_cover_is_reported (with_catalog [tile_a; no_cloud])
           None [square_10km; field_300] square_10km [] []
           [tile_a; no_cloud]); try reflexivity.
  exists no_cloud. split; [|reflexivity]. right. left.
Defined.

Lemma network_only_after_validation_witness :
  exists f rest,
    (load_aoi (Some (Ok [square_10km])) []).1 = Done (f :: rest) /\
    PrimFloat.ltb MAX_AREA_KM2 (area_6933 f / 1e6) = false.
Proof.
  apply (network_only_after_validation green (Some (Ok [square_10km])) []
           Search).
  - vm_compute. do 4 right. left.
  - reflexivity.
Defined.
End ExtraChecks.

(** ** The composite over time *)

(** X18: the composite does not depend on the order of the scenes. Two
    stacks whose time series at a cell are permutations of one another
    have, at that cell, composites that are both NaN or both numbers and
    equal. *)
Theorem composite_ignores_time_order (c c' : Cube) (y x : nat) :
  series c y x ≡ₚ series c' y x ->
  (is_nan (cell (max_time c) y x) = true /\
   is_nan (cell (max_time c') y x) = true) \/
  (is_nan (cell (max_time c) y x) = false /\
   is_nan (cell (max_time c') y x) = false /\
   PrimFloat.eqb (cell (max_time c) y x) (cell (max_time c') y x) = true).
Proof. intros Hp. simpl. by apply nanmax_Permutation. Qed.

(** X19: more scenes never lower the composite. When a stack is extended
    by further time steps, a cell whose composite was a number keeps a
    number, at least as great. *)
Theorem composite_grows_with_scenes (c c' : Cube) (y x : nat) :
  nt c <= nt c' ->
  (forall t, t < nt c -> voxel c' t y x = voxel c t y x) ->
  is_nan (cell (max_time c) y x) = false ->
  is_nan (cell (max_time c') y x) = false /\
  PrimFloat.leb (cell (max_time c) y x) (cell (max_time c') y x) = true.
Proof.
  intros Hnt Hsame Hn. simpl in *.
  destruct (nanmax_cases (series c y x)) as [[Hn0 _]|(_ & Hin & _)];
    [congruence|].
  apply elem_of_series in Hin as (t & Ht & Hv).
  assert (nanmax (series c y x) ∈ series c' y x) as Hin'.
  { apply elem_of_series. exists t. split; [lia|]. rewrite Hsame; done. }
  destruct (nanmax_cases (series c' y x)) as [[_ Hall]|(Hn' & _ & Hmax)].
  - rewrite Forall_forall in Hall. rewrite (Hall _ Hin') in Hn. done.
  - split; [done|]. by apply Hmax.
Qed.

(** ** Signing *)

Section SigningExtras.
Variable env : Env.

(** X20: only deduplicated scenes are signed. Every signing in the log
    of a run is the signing of an item that [filter_best_items] selected
    from what the catalog answered for the AOI that the run loaded. *)
Theorem only_selected_scenes_are_signed uploaded all_drawings (id : string) :
  Sign id ∈ (run_analysis env uploaded all_drawings).2 ->
  exists gdf items best it,
    (load_aoi uploaded all_drawings).1 = Done gdf /\
    search env gdf = Ok items /\
    filter_best_items (hash env) items = Ok best /\
    it ∈ best /\ it ∈ items /\ item_id it = id.
Proof.
  set (P := fun ev : event =>
    forall id, ev = Sign id ->
      exists gdf items best it,
        (load_aoi uploaded all_drawings).1 = Done gdf /\
        search env gdf = Ok items /\
        filter_best_items (hash env) items = Ok best /\
        it ∈ best /\ it ∈ items /\ item_id it = id).
  assert (forall ev, (forall id, ev <> Sign id) -> P ev) as Hother.
  { intros ev Hev i ->. by destruct (Hev i). }
  assert (Forall P (run_analysis env uploaded all_drawings).2) as Hall.
  { unfold run_analysis. apply log_try_except.
    2:{ intros e. repeat constructor. by apply Hother. }
    apply log_bind.
    { unfold load_aoi. destruct uploaded as [[g|e]|]; simpl;
        [| |destruct all_drawings; simpl];
        repeat constructor; by apply Hother. }
    intros gdf Hload. apply log_bind.
    { destruct gdf; simpl; repeat constructor; by apply Hother. }
    intros _ _. apply log_bind.
    { unfold area_validation. destruct gdf; [constructor|]. cbv zeta.
      destruct (PrimFloat.ltb _ _); simpl; repeat constructor;
        by apply Hother. }
    intros _ _. apply log_bind.
    { eapply Forall_impl; [apply fetch_items_log|]. intros ev Hev.
      by apply Hother. }
    intros items Hitems%fetch_items_Done. apply log_bind.
    { destruct (decide _); simpl; repeat constructor; by apply Hother. }
    intros _ _. apply log_bind; [apply lift_log|].
    intros best Hbest%lift_Done. apply log_bind.
    { repeat constructor. by apply Hother. }
    intros _ _. apply log_bind.
    { eapply Forall_impl; [apply compute_ndvi_workflow_signs|].
      intros ev Hev i Hi. destruct (Hev i Hi) as (it & Hit & Hid).
      exists gdf, items, best, it. split; [done|]. split; [done|].
      split; [done|]. split; [done|]. split; [|done].
      unfold filter_best_items in Hbest.
      destruct (traverse _ items) as [rows|]; simpl in Hbest; [|done].
      destruct (GeoDataFrame rows) as [frame|]; simpl in Hbest; [|done].
      destruct (groupby_idxmin frame) as [labels|]; simpl in Hbest; [|done].
      destruct (loc frame labels) as [b|]; simpl in Hbest; [|done].
      injection Hbest as <-. by apply list_elem_of_filter in Hit as [_ ?]. }
    intros [r|] _; simpl; repeat constructor; by apply Hother. }
  intros Hin. rewrite Forall_forall in Hall. by apply (Hall _ Hin).
Qed.
End SigningExtras.

Section MoreChecks.
Import Scenes Runs.
#[local] Set Warnings "-inexact-float".

Lemma composite_ignores_time_order_witness :
  (is_nan (cell (max_time (cube_of_series [nan; 0.5]%float)) 0 0) = true /\
   is_nan (cell (max_time (cube_of_series [0.5; nan]%float)) 0 0) = true) \/
  (is_nan (cell (max_time (cube_of_series [nan; 0.5]%float)) 0 0) = false /\
   is_nan (cell (max_time (cube_of_series [0.5; nan]%float)) 0 0) = false /\
   PrimFloat.eqb (cell (max_time (cube_of_series [nan; 0.5]%float)) 0 0)
                 (cell (max_time (cube_of_series [0.5; nan]%float)) 0 0)
   = true).
Proof.
  apply (composite_ignores_time_order (cube_of_series [nan; 0.5]%float)
           (cube_of_series [0.5; nan]%float) 0 0).
  apply perm_swap.
Defined.

Lemma composite_grows_with_scenes_witness :
  is_nan (cell (max_time (cube_of_series [0.2; 0.5]%float)) 0 0) = false /\
  PrimFloat.leb (cell (max_time (cube_of_series [0.2]%float)) 0 0)
                (cell (max_time (cube_of_series [0.2; 0.5]%float)) 0 0)
  = true.
Proof.
  apply (composite_grows_with_scenes (cube_of_series [0.2]%float)
           (cube_of_series [0.2; 0.5]%float) 0 0).
  - simpl. lia.
  - intros t Ht. simpl in Ht. destruct t; [reflexivity|lia].
  - reflexivity.
Defined.

Lemma only_selected_scenes_are_signed_witness :
  exists gdf items best it,
    (load_aoi (Some (Ok [square_10km])) []).1 = Done gdf /\
    search green gdf = Ok items /\
    filter_best_items (hash green) items = Ok best /\
    it ∈ best /\ it ∈ items /\ item_id it = item_id tile_a.
Proof.
  apply (only_selected_scenes_are_signed green (Some (Ok [square_10km])) []
           (item_id tile_a)).
  vm_compute. do 7 right. left.
Defined.
End MoreChecks.
